(** * Knowledge chatbot (main.py): a shallow embedding and its properties

    The program is sequential glue around external collaborators: the file
    system, the JSON parser, the text splitter, the embedding provider, the
    vector index and the chat model.  The glue is embedded as it is written,
    in a writer-and-error monad that records what the program prints, reads
    and calls; the collaborators are fields of a [World] record. *)

From stdpp Require Import gmap list strings.
From Stdlib Require Import NArith ZArith String Ascii Lia.
From Stdlib Require DecimalN DecimalFacts.

Open Scope N_scope.

(** ** Python runtime values *)

Module Py.

(** A Python [str] is a sequence of Unicode code points. *)
Abbreviation pystr := (list N).

(** A literal of the source text (all literals of main.py are ASCII). *)
Definition lit (s : string) : pystr := map N_of_ascii (list_ascii_of_string s).

(** [s * n] on strings. *)
Fixpoint repeat_str (s : pystr) (n : nat) : pystr :=
  match n with
  | O => []
  | S n' => s ++ repeat_str s n'
  end.

(** [str.isspace] on one code point: the white-space table of CPython
    (bidirectional type WS, B or S, or category Zs). *)
Definition isspace (c : N) : bool :=
  ((9 <=? c) && (c <=? 13))
  || ((28 <=? c) && (c <=? 32))
  || (c =? 133) || (c =? 160) || (c =? 5760)
  || ((8192 <=? c) && (c <=? 8202))
  || (c =? 8232) || (c =? 8233) || (c =? 8239) || (c =? 8287) || (c =? 12288).

Fixpoint lstrip (s : pystr) : pystr :=
  match s with
  | [] => []
  | c :: s' => if isspace c then lstrip s' else s
  end.

Definition rstrip (s : pystr) : pystr := rev (lstrip (rev s)).

(** [str.strip()] without argument: white space removed at both ends. *)
Definition strip (s : pystr) : pystr := rstrip (lstrip s).

(** The lowercase form of an ASCII code point: A to Z are folded. *)
Definition ascii_lower (c : N) : N :=
  if (65 <=? c) && (c <=? 90) then c + 32 else c.

(** [str.lower()].  ASCII code points are folded here; the lowercase mapping
    of a code point above 127 comes from the Unicode database, which may look
    at the position of the code point in the string (final sigma) and may
    answer with several code points: it is the parameter [ulower]. *)
Definition lower_at (ulower : pystr -> nat -> N -> pystr)
    (s : pystr) (i : nat) (c : N) : pystr :=
  if c <? 128 then [ascii_lower c] else ulower s i c.

Definition lower (ulower : pystr -> nat -> N -> pystr) (s : pystr) : pystr :=
  List.concat (imap (lower_at ulower s) s).

(** [x in l] for a list of strings. *)
Definition str_in (x : pystr) (l : list pystr) : bool := bool_decide (x ∈ l).

(** Exception classes that the program tells apart, and the others.  The
    last two derive from [BaseException] only, so [except Exception] lets
    them through. *)
Inductive exn_class :=
| FileNotFoundError
| JSONDecodeError
| KeyError
| TypeError
| AttributeError
| EOFError
| OtherException (name : string)
| KeyboardInterrupt
| SystemExit.

(** An exception object: its class and [str(e)]. *)
Record exn := Exn { exn_cls : exn_class; exn_str : pystr }.

(** [isinstance(e, Exception)]. *)
Definition is_Exception (c : exn_class) : bool :=
  match c with
  | KeyboardInterrupt | SystemExit => false
  | _ => true
  end.

(** What [json.load] returns: [None], [bool], [int], [float] (kept as its
    literal), [str], [list] and [dict] with string keys. *)
#[warnings="-register-all"]
Inductive json :=
| JNull
| JBool (b : bool)
| JInt (z : Z)
| JFloat (literal : pystr)
| JStr (s : pystr)
| JList (l : list json)
| JDict (d : gmap (list N) json).

Inductive result (A : Type) :=
| Ok (a : A)
| Raise (e : exn).
Arguments Ok {A} a.
Arguments Raise {A} e.

(** What a run does to the outside, in order. *)
Inductive event :=
| Print (line : pystr)          (* print(line) *)
| Input (prompt : pystr)        (* input(prompt): the prompt is shown, one line is asked for *)
| Open (path : json)            (* open(path, "r") *)
| EmbedIndex (docs : list pystr) (* FAISS.from_documents(docs, embeddings): the chunks go to the provider *)
| QaRun (query : pystr)         (* qa.run(query) *)
| LlmPredict (query : pystr).   (* llm.predict(query) *)

(** A computation: the events it produced and how it ended. *)
Definition M (A : Type) : Type := list event * result A.

Definition ret {A} (a : A) : M A := ([], Ok a).
Definition raise {A} (e : exn) : M A := ([], Raise e).
Definition emit (ev : event) : M unit := ([ev], Ok tt).
Definition lift {A} (r : result A) : M A := ([], r).

Definition bind {A B} (m : M A) (k : A -> M B) : M B :=
  match m with
  | (t, Ok a) => let '(t', r) := k a in (t ++ t', r)
  | (t, Raise e) => (t, Raise e)
  end.

(** [try: m  except ...: h e]; the handler decides what it catches and
    re-raises the rest. *)
Definition try_except {A} (m : M A) (h : exn -> M A) : M A :=
  match m with
  | (t, Ok a) => (t, Ok a)
  | (t, Raise e) => let '(t', r) := h e in (t ++ t', r)
  end.

Definition trace {A} (m : M A) : list event := fst m.
Definition outcome {A} (m : M A) : result A := snd m.

End Py.

Export Py.

Arguments lit : simpl never.
Arguments repeat_str : simpl never.

Declare Scope py_scope.
Delimit Scope py_scope with py.
Notation "x <- m ;; k" := (bind m (fun x => k))
  (at level 100, m at next level, right associativity) : py_scope.
Notation "m ;;; k" := (bind m (fun _ => k))
  (at level 100, right associativity) : py_scope.
Open Scope py_scope.

Definition print (line : pystr) : M unit := emit (Print line).

(** ** The objects of the libraries

    An object is known by what it was built from. *)

Record TextSplitter := { chunk_size : json; chunk_overlap : json }.
Record Embeddings := { embedding_model : json; embedding_key : json }.
Record VectorStore := { store_docs : list pystr; store_embeddings : Embeddings }.
Record Retriever := { retriever_store : VectorStore; search_k : json }.
Record ChatModel := { chat_model : json; chat_temperature : json; chat_key : json }.
Record RetrievalQA := { qa_llm : ChatModel; qa_retriever : Retriever }.

(** An entry of the file system, as [open(path, "r")] followed by a read of
    the whole file sees it. *)
Inductive file_entry :=
| Absent
| Regular (text : pystr)
| Faulty (e : exn).   (* it exists, and opening or reading it raises [e]:
                         a directory, no permission, bytes that are not UTF-8 *)

(** ** The world the program runs in *)

Record World := {
  (* the interpreter and its standard library *)
  unicode_lower : pystr -> nat -> N -> pystr;
  json_loads : pystr -> pystr + json;   (* [inl msg]: JSONDecodeError(msg) *)
  fs : pystr -> file_entry;
  exists_nonstr : json -> result bool;  (* os.path.exists on an operand that is not a str *)
  open_nonstr : json -> result pystr;   (* open and read on an operand that is not a str *)
  str_nonstr : json -> pystr;           (* str() of a value that is not a str *)
  stdin : list pystr;                   (* the lines of standard input, then end of file *)
  (* langchain and the provider; [Some e]: the call raises [e] *)
  splitter_init : json -> json -> option exn;
  create_documents : TextSplitter -> pystr -> result (list pystr);
  embeddings_init : json -> json -> option exn;
  faiss_from_documents : list pystr -> Embeddings -> option exn;
  as_retriever : VectorStore -> json -> option exn;
  chat_init : json -> json -> json -> option exn;
  qa_from_chain_type : ChatModel -> Retriever -> option exn;
  (* the answers, which may differ from one turn to the next *)
  qa_run : RetrievalQA -> nat -> pystr -> result pystr;
  llm_predict : ChatModel -> nat -> pystr -> result pystr
}.

(** ** Operations of the interpreter used by main.py *)

(** [repr] of a key of the source text (letters and underscores only). *)
Definition repr_key (k : string) : pystr := lit "'" ++ lit k ++ lit "'".

(** [v[k]] for a string literal [k]. *)
Definition getitem (v : json) (k : string) : M json :=
  match v with
  | JDict d =>
      match d !! lit k with
      | Some x => ret x
      | None => raise (Exn KeyError (repr_key k))
      end
  | JList _ => raise (Exn TypeError (lit "list indices must be integers or slices, not str"))
  | JStr _ => raise (Exn TypeError (lit "string indices must be integers, not 'str'"))
  | JNull => raise (Exn TypeError (lit "'NoneType' object is not subscriptable"))
  | JBool _ => raise (Exn TypeError (lit "'bool' object is not subscriptable"))
  | JInt _ => raise (Exn TypeError (lit "'int' object is not subscriptable"))
  | JFloat _ => raise (Exn TypeError (lit "'float' object is not subscriptable"))
  end.

(** [str(v)], as an f-string field formats it. *)
Definition py_str (w : World) (v : json) : pystr :=
  match v with
  | JStr s => s
  | _ => str_nonstr w v
  end.

Definition is_present (e : file_entry) : bool :=
  match e with
  | Absent => false
  | _ => true
  end.

(** [os.path.exists(p)]. *)
Definition os_path_exists (w : World) (p : json) : M bool :=
  match p with
  | JStr s => ret (is_present (fs w s))
  | _ => lift (exists_nonstr w p)
  end.

(** [with open(p, "r", encoding="utf-8") as f: f.read()]. *)
Definition open_read (w : World) (p : json) : M pystr :=
  emit (Open p) ;;;
  match p with
  | JStr s =>
      match fs w s with
      | Absent =>
          raise (Exn FileNotFoundError
                   (lit "[Errno 2] No such file or directory: " ++ lit "'" ++ s ++ lit "'"))
      | Regular text => ret text
      | Faulty e => raise e
      end
  | _ => lift (open_nonstr w p)
  end.

(** [json.loads]. *)
Definition json_parse (w : World) (text : pystr) : M json :=
  match json_loads w text with
  | inl msg => raise (Exn JSONDecodeError msg)
  | inr doc => ret doc
  end.

(** [input(prompt)]: [None] is the end of the input stream. *)
Definition py_input (prompt : pystr) (line : option pystr) : M pystr :=
  emit (Input prompt) ;;;
  match line with
  | Some l => ret l
  | None => raise (Exn EOFError (lit "EOF when reading a line"))
  end.

(** A constructor of a library: it raises, or gives the object. *)
Definition construct {A} (failure : option exn) (obj : A) : M A :=
  match failure with
  | Some e => raise e
  | None => ret obj
  end.

(** ** main.py *)

Definition newline : pystr := [10].

Definition config_path : json := JStr (lit "config.json").

(** [load_config()]. *)
Definition load_config (w : World) : M json :=
  text <- open_read w config_path ;;
  json_parse w text.

(** [ChatOpenAI(model=config["openai"]["model"],
                temperature=config["openai"]["temperature"],
                openai_api_key=config["openai"]["api_key"])],
    written twice in main.py: in [setup_rag_system] and in [main]. *)
Definition new_chat_model (w : World) (config : json) : M ChatModel :=
  openai1 <- getitem config "openai" ;;
  model <- getitem openai1 "model" ;;
  openai2 <- getitem config "openai" ;;
  temperature <- getitem openai2 "temperature" ;;
  openai3 <- getitem config "openai" ;;
  key <- getitem openai3 "api_key" ;;
  construct (chat_init w model temperature key)
    {| chat_model := model; chat_temperature := temperature; chat_key := key |}.

(** "Split data into chunks". *)
Definition split_chunks (w : World) (config : json) (data : pystr) : M (list pystr) :=
  rag1 <- getitem config "rag" ;;
  size <- getitem rag1 "chunk_size" ;;
  rag2 <- getitem config "rag" ;;
  overlap <- getitem rag2 "chunk_overlap" ;;
  splitter <- construct (splitter_init w size overlap)
                {| chunk_size := size; chunk_overlap := overlap |} ;;
  lift (create_documents w splitter data).

(** "Generate embeddings & create vector store". *)
Definition build_vectorstore (w : World) (config : json) (docs : list pystr)
    : M VectorStore :=
  openai1 <- getitem config "openai" ;;
  emodel <- getitem openai1 "embedding_model" ;;
  openai2 <- getitem config "openai" ;;
  ekey <- getitem openai2 "api_key" ;;
  embeddings <- construct (embeddings_init w emodel ekey)
                  {| embedding_model := emodel; embedding_key := ekey |} ;;
  emit (EmbedIndex docs) ;;;
  construct (faiss_from_documents w docs embeddings)
    {| store_docs := docs; store_embeddings := embeddings |}.

(** "Create retriever". *)
Definition build_retriever (w : World) (config : json) (vectorstore : VectorStore)
    : M Retriever :=
  rag <- getitem config "rag" ;;
  k <- getitem rag "similarity_search_k" ;;
  construct (as_retriever w vectorstore k)
    {| retriever_store := vectorstore; search_k := k |}.

Definition absence_warning (w : World) (knowledge_file : json) : pystr :=
  lit "Warning: " ++ py_str w knowledge_file
  ++ lit " tidak ditemukan. Chatbot akan bekerja tanpa knowledge base.".

(** [setup_rag_system(config)]: the pair [(qa, llm)], or [(None, None)]. *)
Definition setup_rag_system (w : World) (config : json)
    : M (option RetrievalQA * option ChatModel) :=
  data_section <- getitem config "data" ;;
  knowledge_file <- getitem data_section "knowledge_file" ;;
  found <- os_path_exists w knowledge_file ;;
  if negb found then
    print (absence_warning w knowledge_file) ;;;
    ret (None, None)
  else
    data <- open_read w knowledge_file ;;
    docs <- split_chunks w config data ;;
    vectorstore <- build_vectorstore w config docs ;;
    retriever <- build_retriever w config vectorstore ;;
    llm <- new_chat_model w config ;;
    qa <- construct (qa_from_chain_type w llm retriever)
            {| qa_llm := llm; qa_retriever := retriever |} ;;
    ret (Some qa, Some llm).

(** The words that end the session. *)
Definition exit_words : list pystr := [lit "quit"; lit "exit"; lit "keluar"].

Definition prompt : pystr := newline ++ lit "[Anda]: ".
Definition bye : pystr := newline ++ lit "[Bye] Terima kasih! Sampai jumpa!".
Definition eof_message : pystr := lit "EOF when reading a line".

(** How one pass through the body of [while True] leaves it. *)
Inductive ctl := Continue | Break.

(** [qa.run(query) if qa else llm.predict(query)], at turn [t]. *)
Definition answer (w : World) (qa : option RetrievalQA) (llm : option ChatModel)
    (t : nat) (query : pystr) : M pystr :=
  match qa with
  | Some chain => emit (QaRun query) ;;; lift (qa_run w chain t query)
  | None =>
      match llm with
      | Some m => emit (LlmPredict query) ;;; lift (llm_predict w m t query)
      | None =>
          raise (Exn AttributeError (lit "'NoneType' object has no attribute 'predict'"))
      end
  end.

(** The inner [except Exception as e]. *)
Definition turn_handler (e : exn) : M unit :=
  if is_Exception (exn_cls e)
  then print (newline ++ lit "[Error]: " ++ exn_str e)
  else raise e.

(** The body of the loop once a line was read. *)
Definition turn (w : World) (qa : option RetrievalQA) (llm : option ChatModel)
    (t : nat) (raw : pystr) : M ctl :=
  let query := strip raw in
  if str_in (lower (unicode_lower w) query) exit_words then
    print bye ;;; ret Break
  else
    match query with
    | [] => ret Continue
    | _ =>
        try_except
          (result <- answer w qa llm t query ;;
           print (newline ++ lit "[Bot]: " ++ result))
          turn_handler ;;;
        ret Continue
    end.

(** One pass through the loop: [input] at a line or at the end of the
    stream, then the body. *)
Definition iteration (w : World) (qa : option RetrievalQA) (llm : option ChatModel)
    (t : nat) (line : option pystr) : M ctl :=
  raw <- py_input prompt line ;;
  turn w qa llm t raw.

(** [while True: ...] over the lines of standard input.  Each pass asks for
    one line; at the end of the stream [input] raises, so nothing of the pass
    after it runs and the loop is left with the exception. *)
Fixpoint session_loop (w : World) (qa : option RetrievalQA) (llm : option ChatModel)
    (t : nat) (lines : list pystr) : M unit :=
  match lines with
  | [] => iteration w qa llm t None ;;; ret tt
  | line :: rest =>
      c <- iteration w qa llm t (Some line) ;;
      match c with
      | Break => ret tt
      | Continue => session_loop w qa llm (S t) rest
      end
  end.

(** The three [except] clauses of [main], in their order. *)
Definition config_missing : pystr := lit "[Error] config.json tidak ditemukan!".
Definition config_invalid : pystr := lit "[Error] Format config.json tidak valid!".

Definition main_handler (e : exn) : M unit :=
  match exn_cls e with
  | FileNotFoundError => print config_missing
  | JSONDecodeError => print config_invalid
  | c => if is_Exception c then print (lit "[Error]: " ++ exn_str e) else raise e
  end.

Definition config_loaded : pystr := lit "[OK] Konfigurasi berhasil dimuat".
Definition rag_ready : pystr := lit "[OK] RAG system berhasil diinisialisasi".
Definition rag_unavailable : pystr :=
  lit "[Warning] RAG system tidak tersedia, menggunakan LLM saja".

(** [if qa: ... else: ...] after the setup: which chat model the loop holds.
    A [RetrievalQA] object defines neither [__bool__] nor [__len__], so [qa]
    is false exactly when it is [None]. *)
Definition select_llm (w : World) (config : json)
    (qa : option RetrievalQA) (llm : option ChatModel) : M (option ChatModel) :=
  match qa with
  | Some _ => print rag_ready ;;; ret llm
  | None =>
      print rag_unavailable ;;;
      m <- new_chat_model w config ;;
      ret (Some m)
  end.

Definition instructions : list event :=
  [Print (newline ++ lit "Ketik pertanyaan Anda (ketik 'quit' atau 'exit' untuk keluar):");
   Print (repeat_str (lit "-") 40)].

(** The [try] block of [main] from the setup to [while True], once the
    configuration is loaded. *)
Definition assemble (w : World) (config : json)
    : M (option RetrievalQA * option ChatModel) :=
  pair <- setup_rag_system w config ;;
  llm <- select_llm w config (fst pair) (snd pair) ;;
  print (newline ++ lit "Ketik pertanyaan Anda (ketik 'quit' atau 'exit' untuk keluar):") ;;;
  print (repeat_str (lit "-") 40) ;;;
  ret (fst pair, llm).

(** The [try] block of [main] up to [while True]. *)
Definition startup (w : World) : M (option RetrievalQA * option ChatModel) :=
  config <- load_config w ;;
  print config_loaded ;;;
  assemble w config.

(** The whole [try] block. *)
Definition main_body (w : World) : M unit :=
  session <- startup w ;;
  session_loop w (fst session) (snd session) 0 (stdin w).

Definition banner : list event :=
  [Print (lit "[Bot] Chatbot RAG - Sesi Tanya Jawab"); Print (repeat_str (lit "=") 40)].

(** [main()].  [Ok tt]: it returns and the process ends with status 0;
    [Raise e]: no clause caught [e] and the interpreter ends the process. *)
Definition main (w : World) : M unit :=
  print (lit "[Bot] Chatbot RAG - Sesi Tanya Jawab") ;;;
  print (repeat_str (lit "=") 40) ;;;
  try_except (main_body w) main_handler.

(** What a run shows up to the notice that it goes on without retrieval. *)
Definition degraded_prefix (w : World) (kf : json) : list event :=
  [Open config_path; Print config_loaded;
   Print (absence_warning w kf); Print rag_unavailable].

(** ** The session loop as a state machine *)

Inductive loop_state := Running | Terminated.

(** The state in which a pass leaves the loop. *)
Definition state_after (m : M ctl) : loop_state :=
  match outcome m with
  | Ok Continue => Running
  | Ok Break => Terminated
  | Raise _ => Terminated
  end.

(** ** What a trace contains *)

Definition is_answer_call (ev : event) : bool :=
  match ev with
  | QaRun _ | LlmPredict _ => true
  | _ => false
  end.

Definition is_retrieval_call (ev : event) : bool :=
  match ev with
  | QaRun _ | EmbedIndex _ => true
  | _ => false
  end.

Definition is_plain_call (ev : event) : bool :=
  match ev with
  | LlmPredict _ => true
  | _ => false
  end.

Definition is_input (ev : event) : bool :=
  match ev with
  | Input _ => true
  | _ => false
  end.

(** No event of the trace is of the kind [p]. *)
Definition free_of (p : event -> bool) (tr : list event) : Prop :=
  forallb (fun ev => negb (p ev)) tr = true.

(** The run never reached the loop: no prompt shown, no line asked for. *)
Definition loop_not_entered (tr : list event) : Prop := free_of is_input tr.

Definition no_answer_call (tr : list event) : Prop := free_of is_answer_call tr.

(** How many times a trace asks for a line. *)
Definition prompts_shown (tr : list event) : nat := List.length (List.filter is_input tr).

(** ** Sample worlds

    A configuration with every section, one without the [rag] section, and
    worlds built around them; the theorems below are run on these. *)

Definition sample_openai : json :=
  JDict (list_to_map [(lit "api_key", JStr (lit "sk-test"));
                      (lit "embedding_model", JStr (lit "text-embedding-3-small"));
                      (lit "model", JStr (lit "gpt-4o-mini"));
                      (lit "temperature", JFloat (lit "0.7"))]).

Definition sample_data : json :=
  JDict {[ lit "knowledge_file" := JStr (lit "notes.txt") ]}.

Definition sample_rag : json :=
  JDict (list_to_map [(lit "chunk_size", JInt 200);
                      (lit "chunk_overlap", JInt 50);
                      (lit "similarity_search_k", JInt 3)]).

Definition sample_config : json :=
  JDict (list_to_map [(lit "data", sample_data); (lit "rag", sample_rag);
                      (lit "openai", sample_openai)]).

Definition config_without_rag : json :=
  JDict (list_to_map [(lit "data", sample_data); (lit "openai", sample_openai)]).

Definition config_without_data : json :=
  JDict (list_to_map [(lit "rag", sample_rag); (lit "openai", sample_openai)]).

Definition rate_limited : exn := Exn (OtherException "RateLimitError") (lit "rate limit").

(** A world: what [config.json] holds ([Absent], or a text that parses to
    [doc] when [doc] is given and does not parse otherwise), what [notes.txt]
    is, the lines typed, and the failures of the embedding constructor, of
    the index construction and of the answers. *)
Definition sample_world (config_entry : file_entry) (doc : option json)
    (notes : file_entry) (lines : list pystr)
    (embeddings_failure index_failure : option exn)
    (reply : pystr -> result pystr) : World :=
  {| unicode_lower := fun _ _ c => [c];
     json_loads := fun _ =>
       match doc with
       | Some d => inr d
       | None => inl (lit "Expecting value: line 1 column 1 (char 0)")
       end;
     fs := fun p =>
       if bool_decide (p = lit "config.json") then config_entry
       else if bool_decide (p = lit "notes.txt") then notes
       else Absent;
     exists_nonstr := fun _ =>
       Raise (Exn TypeError (lit "stat: path should be string, bytes, os.PathLike or integer"));
     open_nonstr := fun _ =>
       Raise (Exn TypeError (lit "expected str, bytes or os.PathLike object"));
     str_nonstr := fun _ => lit "None";
     stdin := lines;
     splitter_init := fun _ _ => None;
     create_documents := fun _ data => Ok [data];
     embeddings_init := fun _ _ => embeddings_failure;
     faiss_from_documents := fun _ _ => index_failure;
     as_retriever := fun _ _ => None;
     chat_init := fun _ _ _ => None;
     qa_from_chain_type := fun _ _ => None;
     qa_run := fun _ _ q => reply q;
     llm_predict := fun _ _ q => reply q |}.

Definition echo (q : pystr) : result pystr := Ok (lit "ok: " ++ q).
Definition failing (_ : pystr) : result pystr := Raise rate_limited.

Definition config_text : pystr := lit "{...}".
Definition notes_text : pystr := lit "Jakarta is the capital of Indonesia.".



(** The full configuration, the knowledge file in place. *)
Definition world_rag (lines : list pystr) (reply : pystr -> result pystr) : World :=
  sample_world (Regular config_text) (Some sample_config) (Regular notes_text)
    lines None None reply.

(** The full configuration, no knowledge file. *)
Definition world_plain (lines : list pystr) (reply : pystr -> result pystr) : World :=
  sample_world (Regular config_text) (Some sample_config) Absent lines None None reply.

(** The objects that [setup_rag_system] builds from [sample_config]. *)
Definition sample_model : ChatModel :=
  {| chat_model := JStr (lit "gpt-4o-mini");
     chat_temperature := JFloat (lit "0.7");
     chat_key := JStr (lit "sk-test") |}.

Definition sample_chain : RetrievalQA :=
  {| qa_llm := sample_model;
     qa_retriever :=
       {| retriever_store :=
            {| store_docs := [notes_text];
               store_embeddings :=
                 {| embedding_model := JStr (lit "text-embedding-3-small");
                    embedding_key := JStr (lit "sk-test") |} |};
          search_k := JInt 3 |} |}.

(** The spellings of the exit words that the specification lists. *)
Definition listed_spellings : list pystr :=
  [lit "quit"; lit "QUIT"; lit "Exit"; lit "keluar"].

Definition auth_error : exn :=
  Exn (OtherException "AuthenticationError") (lit "Incorrect API key provided").
Definition connection_error : exn :=
  Exn (OtherException "APIConnectionError") (lit "Connection error.").

(** The knowledge file is in place and the embedding constructor fails. *)
Definition world_embeddings_fail : World :=
  sample_world (Regular config_text) (Some sample_config) (Regular notes_text)
    [lit "hello"] (Some auth_error) None echo.

(** The knowledge file is in place and the index construction fails. *)
Definition world_index_fails : World :=
  sample_world (Regular config_text) (Some sample_config) (Regular notes_text)
    [lit "hello"] None (Some connection_error) echo.

(** No [rag] section and no knowledge file. *)
Definition world_without_rag : World :=
  sample_world (Regular config_text) (Some config_without_rag) Absent
    [lit "hello"; lit "quit"] None None echo.

(** No [rag] section, the knowledge file in place. *)
Definition world_without_rag_notes : World :=
  sample_world (Regular config_text) (Some config_without_rag) (Regular notes_text)
    [lit "hello"; lit "quit"] None None echo.

(** No [data] section. *)
Definition world_without_data : World :=
  sample_world (Regular config_text) (Some config_without_data) (Regular notes_text)
    [lit "hello"; lit "quit"] None None echo.

(** What [FAISS.from_documents] sends out before it can fail; nothing when
    the embedding constructor failed before it. *)
Definition sent_to_provider (w : World) (emodel ekey : json) (docs : list pystr)
    : list event :=
  match embeddings_init w emodel ekey with
  | Some _ => []
  | None => [EmbedIndex docs]
  end.

(** ** Reading a session off its trace *)

(** The query of an answer call. *)
Definition query_of (ev : event) : option pystr :=
  match ev with
  | QaRun q | LlmPredict q => Some q
  | _ => None
  end.

(** The queries a trace sent to the answerer, in order. *)
Definition queries_in (tr : list event) : list pystr := omap query_of tr.

(** The test of line 90 on a raw line. *)
Definition is_exit_line (w : World) (raw : pystr) : bool :=
  str_in (lower (unicode_lower w) (strip raw)) exit_words.

(** The queries that the lines of a session hold: the stripped lines that
    are not empty, up to the first exit word. *)
Fixpoint expected_queries (w : World) (lines : list pystr) : list pystr :=
  match lines with
  | [] => []
  | raw :: rest =>
      if is_exit_line w raw then []
      else match strip raw with
           | [] => expected_queries w rest
           | q => q :: expected_queries w rest
           end
  end.

Definition is_notice (ev : event) : bool :=
  match ev with
  | Print l => bool_decide (l = rag_unavailable)
  | _ => false
  end.

(** ** More sample worlds *)

Definition interrupted (_ : pystr) : result pystr :=
  Raise (Exn KeyboardInterrupt []).

Definition permission_denied : exn :=
  Exn (OtherException "PermissionError") (lit "[Errno 13] Permission denied: 'notes.txt'").

Definition overlap_too_large : exn :=
  Exn (OtherException "ValueError")
      (lit "Got a larger chunk overlap (500) than chunk size (200), should be smaller.").

Definition tokenizer_missing : exn :=
  Exn FileNotFoundError (lit "[Errno 2] No such file or directory: 'cl100k_base.tiktoken'").

Definition config_without_openai : json :=
  JDict (list_to_map [(lit "data", sample_data); (lit "rag", sample_rag)]).

(** [w] with a text splitter whose constructor fails. *)
Definition with_splitter_failure (w : World) (e : exn) : World :=
  {| unicode_lower := unicode_lower w;
     json_loads := json_loads w;
     fs := fs w;
     exists_nonstr := exists_nonstr w;
     open_nonstr := open_nonstr w;
     str_nonstr := str_nonstr w;
     stdin := stdin w;
     splitter_init := fun _ _ => Some e;
     create_documents := create_documents w;
     embeddings_init := embeddings_init w;
     faiss_from_documents := faiss_from_documents w;
     as_retriever := as_retriever w;
     chat_init := chat_init w;
     qa_from_chain_type := qa_from_chain_type w;
     qa_run := qa_run w;
     llm_predict := llm_predict w |}.

(** The knowledge file exists and cannot be read. *)
Definition world_notes_unreadable : World :=
  sample_world (Regular config_text) (Some sample_config) (Faulty permission_denied)
    [lit "hello"] None None echo.

(** [config.json] exists and cannot be read. *)
Definition world_config_unreadable : World :=
  sample_world (Faulty permission_denied) None Absent [lit "hello"] None None echo.

(** [config.json] holds a JSON array. *)
Definition world_config_is_list : World :=
  sample_world (Regular (lit "[]")) (Some (JList [])) Absent [lit "hello"] None None echo.

(** No [openai] section and no knowledge file. *)
Definition world_without_openai : World :=
  sample_world (Regular config_text) (Some config_without_openai) Absent
    [lit "hello"] None None echo.

(** The embedding constructor misses a file of its own. *)
Definition world_tokenizer_missing : World :=
  sample_world (Regular config_text) (Some sample_config) (Regular notes_text)
    [lit "hello"] (Some tokenizer_missing) None echo.

(** ** [json.loads]

    The decoder of the standard library as CPython 3.11 runs it on a [str]:
    which texts it accepts and the value it builds for each.  Its messages
    are left out; a float is kept as its literal. *)






Definition more (c : N) (n : nat) (r : option (pystr * nat)) : option (pystr * nat) :=
  match r with
  | Some (s, k) => Some (c :: s, (n + k)%nat)
  | None => None
  end.






















(** ** Writing a configuration as JSON

    A JSON text for each configuration, so that what [load_config] returns
    can be compared with what the file says. *)
















(** The queries of the calls of [llm.predict] in a trace, in order. *)
Definition predict_query_of (ev : event) : option pystr :=
  match ev with
  | LlmPredict q => Some q
  | _ => None
  end.

Definition plain_queries_in (tr : list event) : list pystr := omap predict_query_of tr.

(** ** Worlds that parse *)






(** ** Laws of the monad *)

Section Laws.
Context {A B : Type}.
Implicit Types (m : M A) (k : A -> M B).

Lemma M_eta m : m = (trace m, outcome m).
Proof. now destruct m. Qed.

Lemma bind_ok m k a :
  outcome m = Ok a -> bind m k = (trace m ++ trace (k a), outcome (k a)).
Proof.
  destruct m as [t r]; simpl; intros ->.
  unfold bind. now destruct (k a).
Qed.

Lemma bind_raise m k e :
  outcome m = Raise e -> bind m k = (trace m, Raise e).
Proof. destruct m as [t r]; simpl; now intros ->. Qed.

Lemma bind_ret_l (a : A) k : bind (ret a) k = k a.
Proof. unfold bind, ret. now destruct (k a). Qed.

Lemma bind_emit ev (k : unit -> M B) :
  bind (emit ev) k = (ev :: trace (k tt), outcome (k tt)).
Proof. unfold bind, emit. now destruct (k tt). Qed.

Lemma bind_cases m k :
  (exists a, outcome m = Ok a /\ bind m k = (trace m ++ trace (k a), outcome (k a)))
  \/ (exists e, outcome m = Raise e /\ bind m k = (trace m, Raise e)).
Proof.
  destruct (outcome m) as [a|e] eqn:E.
  - left; exists a; split; [reflexivity | now apply bind_ok].
  - right; exists e; split; [reflexivity | now apply bind_raise].
Qed.
End Laws.

Lemma try_except_ok {A} (m : M A) h a :
  outcome m = Ok a -> try_except m h = (trace m, Ok a).
Proof. destruct m as [t r]; simpl; now intros ->. Qed.

Lemma try_except_raise {A} (m : M A) h e :
  outcome m = Raise e -> try_except m h = (trace m ++ trace (h e), outcome (h e)).
Proof.
  destruct m as [t r]; simpl; intros ->.
  unfold try_except. now destruct (h e).
Qed.

(** ** Traces that are free of a kind of event *)

Lemma free_of_nil p : free_of p [].
Proof. reflexivity. Qed.

Lemma free_of_cons p ev tr : p ev = false -> free_of p tr -> free_of p (ev :: tr).
Proof. unfold free_of; simpl; now intros -> ->. Qed.

Lemma free_of_app p t1 t2 : free_of p (t1 ++ t2) <-> free_of p t1 /\ free_of p t2.
Proof. unfold free_of. rewrite forallb_app. apply andb_true_iff. Qed.

Lemma free_of_bind {A B} p (m : M A) (k : A -> M B) :
  free_of p (trace m) -> (forall a, free_of p (trace (k a))) ->
  free_of p (trace (bind m k)).
Proof.
  intros Hm Hk. destruct (bind_cases m k) as [(a & _ & ->)|(e & _ & ->)]; simpl.
  - apply free_of_app; auto.
  - exact Hm.
Qed.

Lemma free_of_try {A} p (m : M A) h :
  free_of p (trace m) -> (forall e, free_of p (trace (h e))) ->
  free_of p (trace (try_except m h)).
Proof.
  intros Hm Hh. destruct (outcome m) as [a|e] eqn:E.
  - now rewrite (try_except_ok _ _ _ E).
  - rewrite (try_except_raise _ _ _ E); simpl. apply free_of_app; auto.
Qed.

Lemma free_of_ret {A} p (a : A) : free_of p (trace (ret a)).
Proof. reflexivity. Qed.

Lemma free_of_raise {A} p e : free_of p (trace (@raise A e)).
Proof. reflexivity. Qed.

Lemma free_of_lift {A} p (r : result A) : free_of p (trace (lift r)).
Proof. reflexivity. Qed.

Lemma free_of_emit p ev : p ev = false -> free_of p (trace (emit ev)).
Proof. unfold free_of; simpl; now intros ->. Qed.

Lemma free_of_construct {A} p failure (obj : A) : free_of p (trace (construct failure obj)).
Proof. now destruct failure. Qed.

Lemma trace_getitem v k : trace (getitem v k) = [].
Proof. destruct v; simpl; try reflexivity. now destruct (d !! lit k). Qed.

Lemma free_of_getitem p v k : free_of p (trace (getitem v k)).
Proof. now rewrite trace_getitem. Qed.

Lemma trace_os_path_exists w v : trace (os_path_exists w v) = [].
Proof. now destruct v. Qed.

Lemma free_of_exists p w v : free_of p (trace (os_path_exists w v)).
Proof. now rewrite trace_os_path_exists. Qed.

Create HintDb quiet.
#[global] Hint Resolve free_of_nil free_of_cons free_of_bind free_of_try free_of_ret
  free_of_raise free_of_lift free_of_emit free_of_construct free_of_getitem
  free_of_exists : quiet.

Ltac quiet := unfold print; intros; repeat
  match goal with
  | |- free_of _ (trace (bind _ _)) => apply free_of_bind; [| intros ?]
  | |- free_of _ (trace (try_except _ _)) => apply free_of_try; [| intros ?]
  | |- free_of _ (trace (emit _)) => apply free_of_emit; reflexivity
  | |- _ => solve [auto with quiet]
  end.

Lemma free_of_open_read p w v : p (Open v) = false -> free_of p (trace (open_read w v)).
Proof.
  intros H. unfold open_read. quiet.
  destruct v; auto with quiet. destruct (fs w s); auto with quiet.
Qed.

Lemma free_of_load_config p w :
  p (Open config_path) = false -> free_of p (trace (load_config w)).
Proof.
  intros H. unfold load_config. quiet.
  - now apply free_of_open_read.
  - unfold json_parse. destruct (json_loads w _); auto with quiet.
Qed.

Lemma free_of_new_chat_model p w config : free_of p (trace (new_chat_model w config)).
Proof. unfold new_chat_model. quiet. Qed.

Lemma free_of_split_chunks p w config data : free_of p (trace (split_chunks w config data)).
Proof. unfold split_chunks. quiet. Qed.

Lemma free_of_build_retriever p w config vs : free_of p (trace (build_retriever w config vs)).
Proof. unfold build_retriever. quiet. Qed.

Lemma input_free_build_vectorstore w config docs :
  free_of is_input (trace (build_vectorstore w config docs)).
Proof. unfold build_vectorstore. quiet. Qed.

Lemma input_free_setup w config : free_of is_input (trace (setup_rag_system w config)).
Proof.
  unfold setup_rag_system. quiet.
  destruct (negb _); quiet;
    auto using free_of_open_read, free_of_split_chunks, input_free_build_vectorstore,
               free_of_build_retriever, free_of_new_chat_model.
Qed.

Lemma free_of_select_llm p w config qa llm :
  p (Print rag_ready) = false -> p (Print rag_unavailable) = false ->
  free_of p (trace (select_llm w config qa llm)).
Proof.
  intros H1 H2. unfold select_llm. destruct qa; quiet; try now apply free_of_emit.
  apply free_of_new_chat_model.
Qed.

(** Nothing before [while True] asks for a line. *)
Lemma input_free_assemble w config : free_of is_input (trace (assemble w config)).
Proof.
  unfold assemble. quiet; auto using input_free_setup, free_of_select_llm.
Qed.

Lemma input_free_startup w : free_of is_input (trace (startup w)).
Proof.
  unfold startup. quiet; auto using free_of_load_config, input_free_assemble.
Qed.

(** ** How [main] unfolds *)

Lemma main_unfold w :
  main w = (banner ++ trace (try_except (main_body w) main_handler),
            outcome (try_except (main_body w) main_handler)).
Proof.
  unfold main, print. rewrite bind_emit, bind_emit. reflexivity.
Qed.

(** A failure before the loop goes to the handlers of [main]. *)
Lemma main_startup_raise w e :
  outcome (startup w) = Raise e ->
  main w = (banner ++ trace (startup w) ++ trace (main_handler e), outcome (main_handler e)).
Proof.
  intros H. rewrite main_unfold. unfold main_body.
  rewrite (bind_raise _ _ _ H).
  now rewrite (try_except_raise _ _ e) by reflexivity.
Qed.

(** Once the startup is through, the loop runs with what the startup chose. *)
Lemma main_startup_ok w qa llm :
  outcome (startup w) = Ok (qa, llm) ->
  main w =
    (banner ++ trace (try_except
                        (startup w ;;; session_loop w qa llm 0 (stdin w)) main_handler),
     outcome (try_except (startup w ;;; session_loop w qa llm 0 (stdin w)) main_handler)).
Proof.
  intros H. rewrite main_unfold. unfold main_body.
  now rewrite !(bind_ok _ _ _ H).
Qed.

Lemma startup_load_raise w e :
  outcome (load_config w) = Raise e -> startup w = (trace (load_config w), Raise e).
Proof. intros H. unfold startup. now rewrite (bind_raise _ _ _ H). Qed.



(** ** Configuration errors *)

Lemma main_load_raise w e :
  load_config w = ([Open config_path], Raise e) ->
  main w = (banner ++ [Open config_path] ++ trace (main_handler e), outcome (main_handler e)).
Proof.
  intros H.
  assert (Hs : startup w = ([Open config_path], Raise e)).
  { rewrite (startup_load_raise w e); now rewrite H. }
  rewrite (main_startup_raise w e); now rewrite Hs.
Qed.

(** ** Strings *)

Lemma lstrip_blank s : forallb isspace s = true -> lstrip s = [].
Proof.
  induction s as [|c s IH]; simpl; [reflexivity|].
  intros H. apply andb_true_iff in H as [Hc Hs]. rewrite Hc. auto.
Qed.

Lemma strip_blank s : forallb isspace s = true -> strip s = [].
Proof. intros H. unfold strip, rstrip. now rewrite (lstrip_blank s H). Qed.

Lemma str_in_true x l : In x l -> str_in x l = true.
Proof. intros H. apply bool_decide_eq_true. now apply list_elem_of_In. Qed.

Lemma lower_at_ascii u s i c : c < 128 -> lower_at u s i c = [ascii_lower c].
Proof. intros H. unfold lower_at. now apply N.ltb_lt in H as ->. Qed.

Lemma concat_imap_singletons {A B} (g : A -> B) (P : A -> Prop) (l : list A) :
  forall f : nat -> A -> list B,
  (forall i x, P x -> f i x = [g x]) ->
  Forall P l -> List.concat (imap f l) = map g l.
Proof.
  induction l as [|x l IH]; intros f Hf Hl; [reflexivity|].
  inversion Hl as [|? ? Hx Hl']; subst. simpl.
  rewrite (Hf 0%nat x Hx). simpl. f_equal.
  apply IH; [| exact Hl']. intros i y Hy. apply Hf, Hy.
Qed.

(** On an ASCII string [lower] folds the letters A to Z and asks nothing of
    the Unicode database. *)
Lemma lower_ascii u s : Forall (fun c => c < 128) s -> lower u s = map ascii_lower s.
Proof.
  intros H. unfold lower.
  apply (concat_imap_singletons ascii_lower (fun c => c < 128)); [| exact H].
  intros i c Hc. now apply lower_at_ascii.
Qed.

(** ** One pass through the loop *)

Lemma iteration_line w qa llm t raw :
  iteration w qa llm t (Some raw) =
    (Input prompt :: trace (turn w qa llm t raw), outcome (turn w qa llm t raw)).
Proof.
  unfold iteration, py_input, bind, emit, ret; simpl.
  now destruct (turn w qa llm t raw).
Qed.

Lemma iteration_eof w qa llm t :
  iteration w qa llm t None = ([Input prompt], Raise (Exn EOFError eof_message)).
Proof. reflexivity. Qed.

Lemma turn_exit w qa llm t raw :
  In (lower (unicode_lower w) (strip raw)) exit_words ->
  turn w qa llm t raw = ([Print bye], Ok Break).
Proof. intros H. unfold turn. now rewrite (str_in_true _ _ H). Qed.

Lemma turn_blank w qa llm t raw :
  forallb isspace raw = true -> turn w qa llm t raw = ([], Ok Continue).
Proof. intros H. unfold turn. now rewrite (strip_blank raw H). Qed.

Lemma turn_answer w qa llm t raw :
  strip raw <> [] ->
  str_in (lower (unicode_lower w) (strip raw)) exit_words = false ->
  turn w qa llm t raw =
    (try_except
       (result <- answer w qa llm t (strip raw) ;; print (newline ++ lit "[Bot]: " ++ result))
       turn_handler ;;;
     ret Continue).
Proof.
  intros Hne Hx. unfold turn. rewrite Hx.
  destruct (strip raw); [contradiction | reflexivity].
Qed.

Lemma turn_answer_ok w qa llm t raw text :
  strip raw <> [] ->
  str_in (lower (unicode_lower w) (strip raw)) exit_words = false ->
  outcome (answer w qa llm t (strip raw)) = Ok text ->
  turn w qa llm t raw =
    (trace (answer w qa llm t (strip raw)) ++ [Print (newline ++ lit "[Bot]: " ++ text)],
     Ok Continue).
Proof.
  intros Hne Hx Ha. rewrite (turn_answer _ _ _ _ _ Hne Hx).
  rewrite (bind_ok _ _ _ Ha). simpl. now rewrite app_nil_r.
Qed.

Lemma turn_answer_raise w qa llm t raw e :
  strip raw <> [] ->
  str_in (lower (unicode_lower w) (strip raw)) exit_words = false ->
  outcome (answer w qa llm t (strip raw)) = Raise e ->
  turn w qa llm t raw =
    (trace (answer w qa llm t (strip raw)) ++ trace (turn_handler e),
     match outcome (turn_handler e) with Ok _ => Ok Continue | Raise e' => Raise e' end).
Proof.
  intros Hne Hx Ha. rewrite (turn_answer _ _ _ _ _ Hne Hx).
  rewrite (bind_raise _ _ _ Ha). simpl.
  unfold turn_handler. destruct (is_Exception (exn_cls e)); simpl.
  - now rewrite app_nil_r.
  - reflexivity.
Qed.

(** With a chain the answer is that of [qa.run]; without one, that of
    [llm.predict]. *)
Lemma answer_rag w chain llm t q :
  answer w (Some chain) llm t q = ([QaRun q], qa_run w chain t q).
Proof. reflexivity. Qed.

Lemma answer_plain w m t q :
  answer w None (Some m) t q = ([LlmPredict q], llm_predict w m t q).
Proof. reflexivity. Qed.

Lemma trace_answer_rag w chain llm t q : trace (answer w (Some chain) llm t q) = [QaRun q].
Proof. reflexivity. Qed.

Lemma trace_answer_plain w m t q : trace (answer w None (Some m) t q) = [LlmPredict q].
Proof. reflexivity. Qed.

Lemma input_free_answer w qa llm t q : free_of is_input (trace (answer w qa llm t q)).
Proof. destruct qa as [chain|], llm as [m|]; simpl; quiet. Qed.

Lemma input_free_turn w qa llm t raw : free_of is_input (trace (turn w qa llm t raw)).
Proof.
  unfold turn. destruct (str_in _ _); [quiet|].
  destruct (strip raw); [quiet|]. quiet.
  - apply input_free_answer.
  - unfold turn_handler. destruct (is_Exception _); quiet.
Qed.

(** ** The loop *)

Lemma session_loop_continue w qa llm t line rest :
  outcome (iteration w qa llm t (Some line)) = Ok Continue ->
  session_loop w qa llm t (line :: rest) =
    (trace (iteration w qa llm t (Some line)) ++ trace (session_loop w qa llm (S t) rest),
     outcome (session_loop w qa llm (S t) rest)).
Proof. intros H. simpl. now rewrite (bind_ok _ _ _ H). Qed.

Lemma session_loop_break w qa llm t line rest :
  outcome (iteration w qa llm t (Some line)) = Ok Break ->
  session_loop w qa llm t (line :: rest) =
    (trace (iteration w qa llm t (Some line)), Ok tt).
Proof. intros H. simpl. rewrite (bind_ok _ _ _ H). simpl. now rewrite app_nil_r. Qed.

Lemma session_loop_raise w qa llm t line rest e :
  outcome (iteration w qa llm t (Some line)) = Raise e ->
  session_loop w qa llm t (line :: rest) =
    (trace (iteration w qa llm t (Some line)), Raise e).
Proof. intros H. simpl. now rewrite (bind_raise _ _ _ H). Qed.

Lemma session_loop_eof w qa llm t :
  session_loop w qa llm t [] = ([Input prompt], Raise (Exn EOFError eof_message)).
Proof. reflexivity. Qed.

(** Every pass starts by asking for a line. *)
Lemma session_loop_prompts_first w qa llm t lines :
  exists tl, trace (session_loop w qa llm t lines) = Input prompt :: tl.
Proof.
  destruct lines as [|line rest]; [now exists [] |].
  destruct (outcome (iteration w qa llm t (Some line))) as [[]|e] eqn:E.
  - rewrite (session_loop_continue _ _ _ _ _ _ E), iteration_line. simpl. eauto.
  - rewrite (session_loop_break _ _ _ _ _ _ E), iteration_line. simpl. eauto.
  - rewrite (session_loop_raise _ _ _ _ _ _ _ E), iteration_line. simpl. eauto.
Qed.

Lemma prompts_shown_app t1 t2 :
  prompts_shown (t1 ++ t2) = (prompts_shown t1 + prompts_shown t2)%nat.
Proof. unfold prompts_shown. now rewrite List.filter_app, length_app. Qed.

Lemma prompts_shown_free tr : free_of is_input tr -> prompts_shown tr = 0%nat.
Proof.
  unfold free_of, prompts_shown. induction tr as [|ev tr IH]; simpl; [reflexivity|].
  intros H. apply andb_true_iff in H as [Hev Htr].
  destruct (is_input ev); [discriminate | auto].
Qed.

Lemma prompts_shown_iteration w qa llm t line :
  prompts_shown (trace (iteration w qa llm t line)) = 1%nat.
Proof.
  destruct line as [raw|]; [| reflexivity].
  rewrite iteration_line. simpl trace.
  change (Input prompt :: ?tr) with ([Input prompt] ++ tr).
  rewrite prompts_shown_app, (prompts_shown_free _ (input_free_turn w qa llm t raw)).
  reflexivity.
Qed.

Lemma prompts_shown_session_bound w qa llm (lines : list pystr) : forall t,
  (prompts_shown (trace (session_loop w qa llm t lines)) <= S (List.length lines))%nat.
Proof.
  induction lines as [|line rest IH]; intros t; [unfold prompts_shown; simpl; lia|].
  pose proof (prompts_shown_iteration w qa llm t (Some line)) as H1.
  destruct (outcome (iteration w qa llm t (Some line))) as [[]|e] eqn:E.
  - rewrite (session_loop_continue _ _ _ _ _ _ E). simpl trace.
    rewrite prompts_shown_app, H1. specialize (IH (S t)). simpl; lia.
  - rewrite (session_loop_break _ _ _ _ _ _ E). simpl trace. rewrite H1. simpl; lia.
  - rewrite (session_loop_raise _ _ _ _ _ _ _ E). simpl trace. rewrite H1. simpl; lia.
Qed.

(** When no line ends the loop, the loop reads them all and ends at the end
    of the stream. *)
Lemma session_loop_reaches_eof w qa llm (lines : list pystr) : forall t,
  (forall (i : nat) raw, lines !! i = Some raw ->
     outcome (iteration w qa llm (t + i) (Some raw)) = Ok Continue) ->
  outcome (session_loop w qa llm t lines) = Raise (Exn EOFError eof_message)
  /\ prompts_shown (trace (session_loop w qa llm t lines)) = S (List.length lines).
Proof.
  induction lines as [|line rest IH]; intros t H; [split; reflexivity|].
  assert (E : outcome (iteration w qa llm t (Some line)) = Ok Continue).
  { specialize (H 0%nat line eq_refl). now rewrite Nat.add_0_r in H. }
  rewrite (session_loop_continue _ _ _ _ _ _ E). simpl trace. simpl outcome.
  destruct (IH (S t)) as [IH1 IH2].
  { intros i raw Hi. specialize (H (S i) raw Hi).
    now replace (S t + i)%nat with (t + S i)%nat by lia. }
  split; [exact IH1|].
  rewrite prompts_shown_app, prompts_shown_iteration, IH2. reflexivity.
Qed.

(** ** Session loop: per-turn failures *)

(** C1. In a pass whose line is neither blank nor an exit word, an exception
    (an instance of [Exception]) raised by the answer call, [qa.run] or
    [llm.predict], is caught in that pass: its text is printed after
    "[Error]: ", the pass ends in [Running], and the loop goes on to ask for
    the next line. *)
Theorem answer_failure_is_caught (w : World) qa llm t raw e :
  strip raw <> [] ->
  str_in (lower (unicode_lower w) (strip raw)) exit_words = false ->
  outcome (answer w qa llm t (strip raw)) = Raise e ->
  is_Exception (exn_cls e) = true ->
  iteration w qa llm t (Some raw) =
    (Input prompt :: trace (answer w qa llm t (strip raw))
       ++ [Print (newline ++ lit "[Error]: " ++ exn_str e)],
     Ok Continue)
  /\ state_after (iteration w qa llm t (Some raw)) = Running
  /\ forall rest, exists tl,
       session_loop w qa llm t (raw :: rest) =
         (Input prompt :: trace (answer w qa llm t (strip raw))
            ++ [Print (newline ++ lit "[Error]: " ++ exn_str e)]
            ++ Input prompt :: tl,
          outcome (session_loop w qa llm (S t) rest)).
Proof.
  intros Hne Hx Ha He.
  assert (E : iteration w qa llm t (Some raw) =
    (Input prompt :: trace (answer w qa llm t (strip raw))
       ++ [Print (newline ++ lit "[Error]: " ++ exn_str e)], Ok Continue)).
  { rewrite iteration_line, (turn_answer_raise _ _ _ _ _ _ Hne Hx Ha).
    unfold turn_handler. now rewrite He. }
  split; [exact E|]. split; [now rewrite E|].
  intros rest. destruct (session_loop_prompts_first w qa llm (S t) rest) as [tl Htl].
  exists tl. rewrite session_loop_continue by now rewrite E.
  rewrite E, Htl. simpl. now rewrite <- app_assoc.
Qed.

Lemma answer_failure_is_caught_witness :
  exists tl,
    session_loop (world_rag [] failing) (Some sample_chain) (Some sample_model) 0
      [lit " What is RAG? "; lit "next"] =
      ([Input prompt; QaRun (lit "What is RAG?");
        Print (newline ++ lit "[Error]: " ++ lit "rate limit")] ++ Input prompt :: tl,
       Raise (Exn EOFError eof_message)).
Proof.
  destruct (answer_failure_is_caught (world_rag [] failing)
              (Some sample_chain) (Some sample_model) 0
              (lit " What is RAG? ") rate_limited) as (_ & _ & H).
  - discriminate.
  - reflexivity.
  - reflexivity.
  - reflexivity.
  - destruct (H [lit "next"]) as [tl Htl]. exists tl. exact Htl.
Defined.

(** ** Session loop: exit words *)

Lemma listed_spellings_exit (w : World) raw :
  In raw listed_spellings -> In (lower (unicode_lower w) (strip raw)) exit_words.
Proof.
  unfold listed_spellings. intros H.
  repeat (destruct H as [<- | H]; [vm_compute; tauto |]).
  destruct H.
Qed.

(** C2. A line whose stripped, lowercased form is one of "quit", "exit" and
    "keluar" ends the loop: the pass prints the farewell and leaves the loop
    in [Terminated]; no answer is asked for, and the lines after it are not
    read.  The spellings "quit", "QUIT", "Exit" and "keluar" are such
    lines. *)
Theorem exit_word_terminates (w : World) qa llm t :
  (forall raw,
     In (lower (unicode_lower w) (strip raw)) exit_words ->
     iteration w qa llm t (Some raw) = ([Input prompt; Print bye], Ok Break)
     /\ state_after (iteration w qa llm t (Some raw)) = Terminated
     /\ no_answer_call (trace (iteration w qa llm t (Some raw)))
     /\ forall rest, session_loop w qa llm t (raw :: rest) = ([Input prompt; Print bye], Ok tt))
  /\ (forall raw,
        In raw listed_spellings ->
        state_after (iteration w qa llm t (Some raw)) = Terminated
        /\ no_answer_call (trace (iteration w qa llm t (Some raw)))).
Proof.
  assert (G : forall raw,
     In (lower (unicode_lower w) (strip raw)) exit_words ->
     iteration w qa llm t (Some raw) = ([Input prompt; Print bye], Ok Break)).
  { intros raw H. now rewrite iteration_line, (turn_exit _ _ _ _ _ H). }
  split.
  - intros raw H. pose proof (G raw H) as E. rewrite E. repeat split.
    intros rest. rewrite session_loop_break by now rewrite E. now rewrite E.
  - intros raw H. rewrite (G raw (listed_spellings_exit w raw H)). now split.
Qed.

Lemma exit_word_terminates_witness :
  session_loop (world_rag [] echo) (Some sample_chain) (Some sample_model) 0
    [lit "  KeLuAr "; lit "never read"] = ([Input prompt; Print bye], Ok tt)
  /\ state_after (iteration (world_rag [] echo) (Some sample_chain) (Some sample_model) 0
                    (Some (lit "QUIT"))) = Terminated.
Proof.
  destruct (exit_word_terminates (world_rag [] echo) (Some sample_chain)
              (Some sample_model) 0) as [H1 H2].
  split.
  - apply (H1 (lit "  KeLuAr ")). vm_compute. tauto.
  - apply (H2 (lit "QUIT")). vm_compute. tauto.
Defined.

(** ** Session loop: blank lines *)

(** C8. A line that is empty or made of white space only leaves the loop in
    [Running]: the pass asks for the line and does nothing else, so neither
    [qa.run] nor [llm.predict] is called, and the loop goes on with the next
    line. *)
Theorem blank_line_is_skipped (w : World) qa llm t raw :
  forallb isspace raw = true ->
  iteration w qa llm t (Some raw) = ([Input prompt], Ok Continue)
  /\ state_after (iteration w qa llm t (Some raw)) = Running
  /\ no_answer_call (trace (iteration w qa llm t (Some raw)))
  /\ forall rest,
       session_loop w qa llm t (raw :: rest) =
         (Input prompt :: trace (session_loop w qa llm (S t) rest),
          outcome (session_loop w qa llm (S t) rest)).
Proof.
  intros H.
  assert (E : iteration w qa llm t (Some raw) = ([Input prompt], Ok Continue)).
  { now rewrite iteration_line, (turn_blank _ _ _ _ _ H). }
  rewrite E. repeat split.
  intros rest. rewrite session_loop_continue by now rewrite E. now rewrite E.
Qed.

Lemma blank_line_is_skipped_witness :
  iteration (world_plain [] echo) None (Some sample_model) 0 (Some []) =
    ([Input prompt], Ok Continue)
  /\ iteration (world_plain [] echo) None (Some sample_model) 0 (Some [32; 9; 160; 12288]) =
       ([Input prompt], Ok Continue).
Proof.
  split.
  - apply (blank_line_is_skipped (world_plain [] echo) None (Some sample_model) 0 []).
    reflexivity.
  - apply (blank_line_is_skipped (world_plain [] echo) None (Some sample_model) 0
             [32; 9; 160; 12288]).
    reflexivity.
Defined.

(** ** Session loop: end of the input stream *)

Lemma prompts_shown_banner : prompts_shown banner = 0%nat.
Proof. reflexivity. Qed.

Lemma main_reaches_eof w qa llm :
  outcome (startup w) = Ok (qa, llm) ->
  outcome (session_loop w qa llm 0 (stdin w)) = Raise (Exn EOFError eof_message) ->
  main w =
    (banner ++ trace (startup w) ++ trace (session_loop w qa llm 0 (stdin w))
       ++ [Print (lit "[Error]: " ++ eof_message)],
     Ok tt).
Proof.
  intros Hs Hl. rewrite (main_startup_ok w qa llm Hs).
  rewrite (bind_ok _ _ _ Hs).
  rewrite (try_except_raise _ _ (Exn EOFError eof_message)) by (simpl; exact Hl).
  simpl. now rewrite <- app_assoc.
Qed.

(** C9. At the end of the input stream the pass through the loop raises
    [EOFError], which leaves the loop in [Terminated]; the generic clause of
    [main] catches it, prints it, and [main] returns.  Whatever the lines
    are, the loop never asks for more than one line after the last; when no
    line ends it earlier, it asks for each line once and for one more, and
    ends there.  A pass leaves the loop in [Running] or in [Terminated]. *)
Theorem end_of_input_terminates (w : World) :
  (forall qa llm t,
     iteration w qa llm t None = ([Input prompt], Raise (Exn EOFError eof_message))
     /\ state_after (iteration w qa llm t None) = Terminated
     /\ session_loop w qa llm t [] = ([Input prompt], Raise (Exn EOFError eof_message)))
  /\ main_handler (Exn EOFError eof_message) =
       ([Print (lit "[Error]: " ++ eof_message)], Ok tt)
  /\ (forall qa llm t (lines : list pystr),
        (prompts_shown (trace (session_loop w qa llm t lines)) <= S (List.length lines))%nat)
  /\ (forall qa llm t (lines : list pystr),
        (forall (i : nat) raw, lines !! i = Some raw ->
           outcome (iteration w qa llm (t + i) (Some raw)) = Ok Continue) ->
        outcome (session_loop w qa llm t lines) = Raise (Exn EOFError eof_message)
        /\ prompts_shown (trace (session_loop w qa llm t lines)) = S (List.length lines))
  /\ (forall qa llm,
        outcome (startup w) = Ok (qa, llm) ->
        (forall (i : nat) raw, stdin w !! i = Some raw ->
           outcome (iteration w qa llm i (Some raw)) = Ok Continue) ->
        outcome (main w) = Ok tt
        /\ last (trace (main w)) = Some (Print (lit "[Error]: " ++ eof_message))
        /\ prompts_shown (trace (main w)) = S (List.length (stdin w)))
  /\ (forall m : M ctl, state_after m = Running \/ state_after m = Terminated).
Proof.
  split; [intros; repeat split|].
  split; [reflexivity|].
  split; [intros; apply prompts_shown_session_bound|].
  split; [intros qa llm t lines H; now apply session_loop_reaches_eof|].
  split.
  - intros qa llm Hs Hc.
    destruct (session_loop_reaches_eof w qa llm (stdin w) 0 Hc) as [Ho Hp].
    rewrite (main_reaches_eof w qa llm Hs Ho). cbn [trace outcome fst snd].
    split; [reflexivity|]. split.
    + now rewrite !app_assoc, last_snoc.
    + rewrite !prompts_shown_app, Hp, prompts_shown_banner,
        (prompts_shown_free _ (input_free_startup w)).
      unfold prompts_shown; simpl; lia.
  - intros m. unfold state_after. destruct (outcome m) as [[]|]; auto.
Qed.

Lemma end_of_input_terminates_witness :
  outcome (main (world_plain [lit "hello"; lit "  "; lit "Who are you?"] echo)) = Ok tt
  /\ last (trace (main (world_plain [lit "hello"; lit "  "; lit "Who are you?"] echo))) =
       Some (Print (lit "[Error]: " ++ eof_message))
  /\ prompts_shown (trace (main (world_plain [lit "hello"; lit "  "; lit "Who are you?"] echo)))
       = 4%nat.
Proof.
  destruct (end_of_input_terminates
              (world_plain [lit "hello"; lit "  "; lit "Who are you?"] echo))
    as (_ & _ & _ & _ & H & _).
  apply (H None (Some sample_model)).
  - reflexivity.
  - intros i raw Hi.
    destruct i as [|[|[|i]]]; simpl in Hi; try discriminate;
      injection Hi as <-; reflexivity.
Defined.

(** ** Startup *)

Lemma getitem_eta v k : getitem v k = ([], outcome (getitem v k)).
Proof. rewrite (M_eta (getitem v k)) at 1. now rewrite trace_getitem. Qed.

Lemma os_path_exists_eta w v : os_path_exists w v = ([], outcome (os_path_exists w v)).
Proof. rewrite (M_eta (os_path_exists w v)) at 1. now rewrite trace_os_path_exists. Qed.

Lemma bind_quiet_ok {A B} (m : M A) (k : A -> M B) a :
  m = ([], Ok a) -> bind m k = k a.
Proof. intros ->. apply bind_ret_l. Qed.

Lemma getitem_ok v k x (B : Type) (f : json -> M B) :
  outcome (getitem v k) = Ok x -> bind (getitem v k) f = f x.
Proof. intros H. apply bind_quiet_ok. now rewrite getitem_eta, H. Qed.

Lemma getitem_raise v k e (B : Type) (f : json -> M B) :
  outcome (getitem v k) = Raise e -> bind (getitem v k) f = ([], Raise e).
Proof. intros H. now rewrite getitem_eta, H. Qed.

Lemma outcome_bind_ok_inv {A B} (m : M A) (k : A -> M B) b :
  outcome (bind m k) = Ok b -> exists a, outcome m = Ok a /\ outcome (k a) = Ok b.
Proof.
  destruct (bind_cases m k) as [(a & Ha & ->)|(e & _ & ->)]; simpl.
  - eauto.
  - discriminate.
Qed.

Lemma trace_load_config w : trace (load_config w) = [Open config_path].
Proof.
  unfold load_config, open_read, config_path. rewrite bind_emit.
  destruct (fs w (lit "config.json")); try reflexivity.
  simpl. unfold json_parse. now destruct (json_loads w text).
Qed.

Lemma trace_new_chat_model w config : trace (new_chat_model w config) = [].
Proof.
  unfold new_chat_model.
  repeat match goal with
  | |- trace (bind (getitem ?v ?k) _) = _ =>
      destruct (outcome (getitem v k)) eqn:?;
      [erewrite getitem_ok by eassumption | now erewrite getitem_raise by eassumption]
  end.
  now destruct (chat_init w _ _ _).
Qed.

(** The knowledge file is missing: no chain, no model, one warning. *)
Lemma setup_absent w config d kf :
  outcome (getitem config "data") = Ok d ->
  outcome (getitem d "knowledge_file") = Ok kf ->
  outcome (os_path_exists w kf) = Ok false ->
  setup_rag_system w config = ([Print (absence_warning w kf)], Ok (None, None)).
Proof.
  intros Hd Hk Hx. unfold setup_rag_system.
  rewrite (getitem_ok _ _ _ _ _ Hd), (getitem_ok _ _ _ _ _ Hk).
  erewrite bind_quiet_ok by (rewrite os_path_exists_eta, Hx; reflexivity).
  reflexivity.
Qed.

(** The knowledge file is there: what comes after the test. *)
Lemma setup_present w config d kf :
  outcome (getitem config "data") = Ok d ->
  outcome (getitem d "knowledge_file") = Ok kf ->
  outcome (os_path_exists w kf) = Ok true ->
  setup_rag_system w config =
    (data <- open_read w kf ;;
     docs <- split_chunks w config data ;;
     vectorstore <- build_vectorstore w config docs ;;
     retriever <- build_retriever w config vectorstore ;;
     llm <- new_chat_model w config ;;
     qa <- construct (qa_from_chain_type w llm retriever)
             {| qa_llm := llm; qa_retriever := retriever |} ;;
     ret (Some qa, Some llm)).
Proof.
  intros Hd Hk Hx. unfold setup_rag_system.
  rewrite (getitem_ok _ _ _ _ _ Hd), (getitem_ok _ _ _ _ _ Hk).
  erewrite bind_quiet_ok by (rewrite os_path_exists_eta, Hx; reflexivity).
  reflexivity.
Qed.

(** [setup_rag_system] returns no chain only when the knowledge file is
    missing. *)
Lemma setup_none_inv w config llm :
  outcome (setup_rag_system w config) = Ok (None, llm) ->
  exists d kf,
    outcome (getitem config "data") = Ok d
    /\ outcome (getitem d "knowledge_file") = Ok kf
    /\ outcome (os_path_exists w kf) = Ok false
    /\ setup_rag_system w config = ([Print (absence_warning w kf)], Ok (None, None)).
Proof.
  intros H.
  destruct (outcome (getitem config "data")) as [d|e] eqn:Hd.
  2:{ unfold setup_rag_system in H. now rewrite (getitem_raise _ _ _ _ _ Hd) in H. }
  destruct (outcome (getitem d "knowledge_file")) as [kf|e] eqn:Hk.
  2:{ unfold setup_rag_system in H.
      now rewrite (getitem_ok _ _ _ _ _ Hd), (getitem_raise _ _ _ _ _ Hk) in H. }
  destruct (outcome (os_path_exists w kf)) as [[]|e] eqn:Hx.
  - rewrite (setup_present w config d kf Hd Hk Hx) in H.
    repeat (apply outcome_bind_ok_inv in H as [? [_ H]]). discriminate.
  - exists d, kf. repeat split; try assumption. now apply (setup_absent w config d kf).
  - unfold setup_rag_system in H.
    rewrite (getitem_ok _ _ _ _ _ Hd), (getitem_ok _ _ _ _ _ Hk) in H.
    rewrite (bind_raise _ _ _ Hx) in H. discriminate.
Qed.

Lemma startup_loaded w config :
  outcome (load_config w) = Ok config ->
  startup w =
    (Open config_path :: Print config_loaded :: trace (assemble w config),
     outcome (assemble w config)).
Proof.
  intros H. unfold startup. rewrite (bind_ok _ _ _ H), trace_load_config.
  unfold print. now rewrite bind_emit.
Qed.

(** After a setup without chain, [main] builds the chat model alone. *)
Lemma assemble_degraded w config kf :
  setup_rag_system w config = ([Print (absence_warning w kf)], Ok (None, None)) ->
  assemble w config =
    match outcome (new_chat_model w config) with
    | Ok m => ([Print (absence_warning w kf); Print rag_unavailable] ++ instructions,
               Ok (None, Some m))
    | Raise e => ([Print (absence_warning w kf); Print rag_unavailable], Raise e)
    end.
Proof.
  intros H. unfold assemble. rewrite H.
  rewrite (bind_ok _ _ (None, None)) by reflexivity. cbn [trace outcome fst snd].
  unfold select_llm, print. rewrite bind_emit.
  rewrite (M_eta (new_chat_model w config)), trace_new_chat_model.
  now destruct (outcome (new_chat_model w config)).
Qed.

Lemma try_except_bind_ok {A B} (m : M A) (k : A -> M B) h a :
  outcome m = Ok a ->
  try_except (bind m k) h =
    (trace m ++ trace (try_except (k a) h), outcome (try_except (k a) h)).
Proof.
  intros H. rewrite (bind_ok _ _ _ H).
  destruct (outcome (k a)) as [b|e] eqn:E.
  - rewrite (try_except_ok (k a) h b E). reflexivity.
  - rewrite (try_except_raise (k a) h e E).
    unfold try_except. cbn [trace outcome fst snd].
    destruct (h e). now rewrite app_assoc.
Qed.

(** [main] once the startup is through: the loop under the handlers. *)
Lemma main_enters_loop w qa llm :
  outcome (startup w) = Ok (qa, llm) ->
  main w =
    (banner ++ trace (startup w)
       ++ trace (try_except (session_loop w qa llm 0 (stdin w)) main_handler),
     outcome (try_except (session_loop w qa llm 0 (stdin w)) main_handler)).
Proof.
  intros H. rewrite main_unfold. unfold main_body.
  now rewrite (try_except_bind_ok _ _ _ _ H).
Qed.

(** ** Which answer path a session uses *)

Section AnswerPath.
Variable p : event -> bool.
Hypothesis p_print : forall l, p (Print l) = false.
Hypothesis p_input : forall l, p (Input l) = false.

Lemma free_of_print l : free_of p (trace (print l)).
Proof. apply free_of_emit, p_print. Qed.

Lemma free_of_main_handler e : free_of p (trace (main_handler e)).
Proof.
  unfold main_handler.
  destruct (exn_cls e); simpl; first [apply free_of_print | reflexivity].
Qed.

Lemma free_of_turn_handler e : free_of p (trace (turn_handler e)).
Proof.
  unfold turn_handler.
  destruct (is_Exception _); [apply free_of_print | reflexivity].
Qed.

Variables (w : World) (qa : option RetrievalQA) (llm : option ChatModel).
Hypothesis p_answer : forall t q, free_of p (trace (answer w qa llm t q)).

Lemma free_of_turn t raw : free_of p (trace (turn w qa llm t raw)).
Proof.
  unfold turn. destruct (str_in _ _).
  - apply free_of_bind; [apply free_of_print | intros; apply free_of_ret].
  - destruct (strip raw); [apply free_of_ret|].
    apply free_of_bind; [| intros; apply free_of_ret].
    apply free_of_try; [| apply free_of_turn_handler].
    apply free_of_bind; [apply p_answer | intros; apply free_of_print].
Qed.

Lemma free_of_iteration t line : free_of p (trace (iteration w qa llm t line)).
Proof.
  destruct line as [raw|].
  - rewrite iteration_line. apply free_of_cons; [apply p_input | apply free_of_turn].
  - rewrite iteration_eof. apply free_of_cons; [apply p_input | apply free_of_nil].
Qed.

Lemma free_of_session lines : forall t, free_of p (trace (session_loop w qa llm t lines)).
Proof.
  induction lines as [|line rest IH]; intros t.
  - rewrite session_loop_eof. apply free_of_cons; [apply p_input | apply free_of_nil].
  - pose proof (free_of_iteration t (Some line)) as Hi.
    destruct (outcome (iteration w qa llm t (Some line))) as [[]|e] eqn:E.
    + rewrite (session_loop_continue _ _ _ _ _ _ E). apply free_of_app. auto.
    + now rewrite (session_loop_break _ _ _ _ _ _ E).
    + now rewrite (session_loop_raise _ _ _ _ _ _ _ E).
Qed.
End AnswerPath.

Lemma plain_session_never_retrieves w llm t lines :
  free_of is_retrieval_call (trace (session_loop w None llm t lines)).
Proof.
  apply free_of_session; [reflexivity | reflexivity |].
  intros t' q. destruct llm; simpl; quiet.
Qed.

Lemma rag_session_never_predicts w chain llm t lines :
  free_of is_plain_call (trace (session_loop w (Some chain) llm t lines)).
Proof.
  apply free_of_session; [reflexivity | reflexivity |].
  intros t' q. simpl. quiet.
Qed.

(** ** Knowledge file absent *)

Lemma main_degraded w config kf :
  outcome (load_config w) = Ok config ->
  setup_rag_system w config = ([Print (absence_warning w kf)], Ok (None, None)) ->
  main w =
    match outcome (new_chat_model w config) with
    | Ok m =>
        (banner ++ degraded_prefix w kf ++ instructions
           ++ trace (try_except (session_loop w None (Some m) 0 (stdin w)) main_handler),
         outcome (try_except (session_loop w None (Some m) 0 (stdin w)) main_handler))
    | Raise e =>
        (banner ++ degraded_prefix w kf ++ trace (main_handler e), outcome (main_handler e))
    end.
Proof.
  intros Hl Hs.
  pose proof (startup_loaded w config Hl) as E.
  rewrite (assemble_degraded w config kf Hs) in E.
  destruct (outcome (new_chat_model w config)) as [m|e].
  - rewrite (main_enters_loop w None (Some m)) by now rewrite E.
    rewrite E. cbn [trace outcome fst snd]. unfold degraded_prefix.
    cbn [app]. reflexivity.
  - rewrite (main_startup_raise w e) by now rewrite E.
    now rewrite E.
Qed.

(** C6. When the path under [data.knowledge_file] does not exist,
    [setup_rag_system] raises nothing: it prints the warning that names the
    path and returns [(None, None)].  [main] then goes on without retrieval:
    it prints the notice of the plain mode and builds the chat model alone,
    and once that model is built the loop runs with no chain. *)
Theorem absent_knowledge_file_degrades (w : World) config d kf :
  outcome (getitem config "data") = Ok d ->
  outcome (getitem d "knowledge_file") = Ok kf ->
  outcome (os_path_exists w kf) = Ok false ->
  setup_rag_system w config = ([Print (absence_warning w kf)], Ok (None, None))
  /\ (outcome (load_config w) = Ok config ->
      (exists tl, trace (main w) = banner ++ degraded_prefix w kf ++ tl)
      /\ forall m,
           outcome (new_chat_model w config) = Ok m ->
           main w =
             (banner ++ degraded_prefix w kf ++ instructions
                ++ trace (try_except (session_loop w None (Some m) 0 (stdin w)) main_handler),
              outcome (try_except (session_loop w None (Some m) 0 (stdin w)) main_handler))).
Proof.
  intros Hd Hk Hx.
  pose proof (setup_absent w config d kf Hd Hk Hx) as Hs.
  split; [exact Hs|]. intros Hl.
  pose proof (main_degraded w config kf Hl Hs) as E.
  split.
  - destruct (outcome (new_chat_model w config)); rewrite E; cbn [trace fst]; eauto.
  - intros m Hm. now rewrite Hm in E.
Qed.

Lemma absent_knowledge_file_degrades_witness :
  setup_rag_system (world_plain [lit "What is the capital of France?"] echo) sample_config =
    ([Print (lit "Warning: notes.txt tidak ditemukan. Chatbot akan bekerja tanpa knowledge base.")],
     Ok (None, None))
  /\ main (world_plain [lit "What is the capital of France?"] echo) =
       (banner
          ++ [Open config_path; Print config_loaded;
              Print (lit "Warning: notes.txt tidak ditemukan. Chatbot akan bekerja tanpa knowledge base.");
              Print rag_unavailable]
          ++ instructions
          ++ [Input prompt; LlmPredict (lit "What is the capital of France?");
              Print (newline ++ lit "[Bot]: ok: What is the capital of France?");
              Input prompt; Print (lit "[Error]: EOF when reading a line")],
        Ok tt).
Proof.
  destruct (absent_knowledge_file_degrades
              (world_plain [lit "What is the capital of France?"] echo)
              sample_config sample_data (JStr (lit "notes.txt")))
    as [H1 H2]; try reflexivity.
  split; [exact H1|].
  destruct (H2 eq_refl) as [_ H3].
  rewrite (H3 sample_model eq_refl). reflexivity.
Defined.

(** ** Failures of the setup *)

Lemma main_handler_cases e :
  (is_Exception (exn_cls e) = true -> exists line, main_handler e = ([Print line], Ok tt))
  /\ (is_Exception (exn_cls e) = false -> main_handler e = ([], Raise e)).
Proof.
  unfold main_handler. destruct (exn_cls e); simpl; split; intros H;
    try discriminate; try reflexivity; eauto.
Qed.

Lemma main_handler_no_notice e : ~ In (Print rag_unavailable) (trace (main_handler e)).
Proof.
  unfold main_handler.
  destruct (exn_cls e); simpl; intros H;
    repeat match type of H with _ \/ _ => destruct H as [H|H] end;
    try contradiction; vm_compute in H; discriminate.
Qed.

Lemma main_assemble_raise w config e :
  outcome (load_config w) = Ok config ->
  outcome (assemble w config) = Raise e ->
  main w =
    (banner ++ Open config_path :: Print config_loaded :: trace (assemble w config)
       ++ trace (main_handler e),
     outcome (main_handler e))
  /\ loop_not_entered (trace (main w)).
Proof.
  intros Hl Ha.
  pose proof (startup_loaded w config Hl) as E.
  assert (Hs : outcome (startup w) = Raise e) by now rewrite E.
  assert (Hm : main w =
    (banner ++ Open config_path :: Print config_loaded :: trace (assemble w config)
       ++ trace (main_handler e), outcome (main_handler e))).
  { rewrite (main_startup_raise w e Hs). now rewrite E. }
  split; [exact Hm|].
  rewrite (main_startup_raise w e Hs). cbn [trace fst].
  apply free_of_app; split; [reflexivity|].
  apply free_of_app; split; [apply input_free_startup|].
  now apply free_of_main_handler.
Qed.

Lemma assemble_setup_raise w config e :
  outcome (setup_rag_system w config) = Raise e ->
  assemble w config = (trace (setup_rag_system w config), Raise e).
Proof. intros H. unfold assemble. now rewrite (bind_raise _ _ _ H). Qed.

Lemma trace_split_chunks w config data : trace (split_chunks w config data) = [].
Proof.
  unfold split_chunks.
  repeat match goal with
  | |- trace (bind (getitem ?v ?k) _) = _ =>
      destruct (outcome (getitem v k)) eqn:?;
      [erewrite getitem_ok by eassumption | now erewrite getitem_raise by eassumption]
  end.
  destruct (splitter_init w _ _); reflexivity.
Qed.

Section EmbeddingFailure.
Variables (w : World) (config d o : json) (p data : pystr) (docs : list pystr).
Variables (emodel ekey : json) (e : exn).
Hypothesis config_loads : outcome (load_config w) = Ok config.
Hypothesis has_data : outcome (getitem config "data") = Ok d.
Hypothesis has_path : outcome (getitem d "knowledge_file") = Ok (JStr p).
Hypothesis file_present : fs w p = Regular data.
Hypothesis chunks : outcome (split_chunks w config data) = Ok docs.
Hypothesis has_openai : outcome (getitem config "openai") = Ok o.
Hypothesis has_model : outcome (getitem o "embedding_model") = Ok emodel.
Hypothesis has_key : outcome (getitem o "api_key") = Ok ekey.
Hypothesis failure :
  embeddings_init w emodel ekey = Some e
  \/ (embeddings_init w emodel ekey = None
      /\ faiss_from_documents w docs
           {| embedding_model := emodel; embedding_key := ekey |} = Some e).

Lemma build_vectorstore_fails :
  build_vectorstore w config docs = (sent_to_provider w emodel ekey docs, Raise e).
Proof.
  unfold build_vectorstore, sent_to_provider.
  rewrite (getitem_ok _ _ _ _ _ has_openai), (getitem_ok _ _ _ _ _ has_model).
  rewrite (getitem_ok _ _ _ _ _ has_openai), (getitem_ok _ _ _ _ _ has_key).
  destruct failure as [H | [H1 H2]].
  - now rewrite H.
  - rewrite H1. cbn [construct]. rewrite bind_ret_l, bind_emit, H2. reflexivity.
Qed.

Lemma setup_fails :
  setup_rag_system w config =
    (Open (JStr p) :: sent_to_provider w emodel ekey docs, Raise e).
Proof.
  rewrite (setup_present w config d (JStr p) has_data has_path)
    by (simpl; now rewrite file_present).
  assert (Ho : open_read w (JStr p) = ([Open (JStr p)], Ok data)).
  { unfold open_read. rewrite bind_emit, file_present. reflexivity. }
  rewrite (bind_ok _ _ data) by now rewrite Ho.
  rewrite (bind_ok _ _ docs chunks), trace_split_chunks.
  rewrite (bind_raise _ _ e) by now rewrite build_vectorstore_fails.
  now rewrite Ho, build_vectorstore_fails.
Qed.

(** C7. The knowledge file is there and the embedding constructor or the
    construction of the index raises [e].  Then [setup_rag_system] raises
    [e] itself and returns no pair; [main] takes it in its [except]
    clauses: the loop is never entered, no answer is asked for, and the
    notice of the plain mode is not printed.  An instance of [Exception]
    is printed by a clause and [main] returns; any other exception leaves
    [main] uncaught. *)
Theorem embedding_failure_is_fatal :
  setup_rag_system w config =
    (Open (JStr p) :: sent_to_provider w emodel ekey docs, Raise e)
  /\ main w =
       (banner ++ [Open config_path; Print config_loaded; Open (JStr p)]
          ++ sent_to_provider w emodel ekey docs ++ trace (main_handler e),
        outcome (main_handler e))
  /\ loop_not_entered (trace (main w))
  /\ no_answer_call (trace (main w))
  /\ ~ In (Print rag_unavailable) (trace (main w))
  /\ (is_Exception (exn_cls e) = true ->
        exists line, main_handler e = ([Print line], Ok tt))
  /\ (is_Exception (exn_cls e) = false -> outcome (main w) = Raise e).
Proof.
  pose proof setup_fails as Hs.
  assert (Ha : assemble w config =
                 (Open (JStr p) :: sent_to_provider w emodel ekey docs, Raise e)).
  { rewrite (assemble_setup_raise w config e) by now rewrite Hs. now rewrite Hs. }
  destruct (main_assemble_raise w config e config_loads) as [Hm Hl];
    [now rewrite Ha|].
  rewrite Ha in Hm. cbn [trace fst] in Hm.
  assert (Hm' : main w =
       (banner ++ [Open config_path; Print config_loaded; Open (JStr p)]
          ++ sent_to_provider w emodel ekey docs ++ trace (main_handler e),
        outcome (main_handler e))) by exact Hm.
  split; [exact Hs|]. split; [exact Hm'|]. split; [exact Hl|].
  destruct (main_handler_cases e) as [Hc Hu].
  split; [| split; [| split; [exact Hc|]]].
  - rewrite Hm'. cbn [trace fst].
    apply free_of_app; split; [reflexivity|].
    apply free_of_app; split; [reflexivity|].
    apply free_of_app; split.
    + unfold sent_to_provider. now destruct (embeddings_init w emodel ekey).
    + now apply free_of_main_handler.
  - rewrite Hm'. cbn [trace fst]. rewrite !in_app_iff.
    intros [H|[H|[H|H]]].
    + vm_compute in H. intuition discriminate.
    + vm_compute in H. intuition discriminate.
    + unfold sent_to_provider in H.
      destruct (embeddings_init w emodel ekey); simpl in H; intuition discriminate.
    + now apply main_handler_no_notice in H.
  - intros He. rewrite Hm'. cbn [outcome snd]. now rewrite (Hu He).
Qed.
End EmbeddingFailure.

Lemma embedding_failure_is_fatal_witness :
  main world_embeddings_fail =
    (banner ++ [Open config_path; Print config_loaded; Open (JStr (lit "notes.txt"));
                Print (lit "[Error]: Incorrect API key provided")],
     Ok tt)
  /\ main world_index_fails =
       (banner ++ [Open config_path; Print config_loaded; Open (JStr (lit "notes.txt"));
                   EmbedIndex [notes_text];
                   Print (lit "[Error]: Connection error.")],
        Ok tt).
Proof.
  split.
  - apply (embedding_failure_is_fatal world_embeddings_fail sample_config sample_data
             sample_openai (lit "notes.txt") notes_text [notes_text]
             (JStr (lit "text-embedding-3-small")) (JStr (lit "sk-test")) auth_error);
      try reflexivity.
    left; reflexivity.
  - apply (embedding_failure_is_fatal world_index_fails sample_config sample_data
             sample_openai (lit "notes.txt") notes_text [notes_text]
             (JStr (lit "text-embedding-3-small")) (JStr (lit "sk-test")) connection_error);
      try reflexivity.
    right; split; reflexivity.
Defined.

(** ** A configuration that lacks a key *)

Lemma getitem_missing dm k :
  dm !! lit k = None -> getitem (JDict dm) k = ([], Raise (Exn KeyError (repr_key k))).
Proof. intros H. simpl. now rewrite H. Qed.

(** A configuration without the [rag] section and a knowledge file that is
    absent: the document parses, [config["rag"]] would raise [KeyError], and
    yet no error is printed and the loop is entered and answers. *)
Lemma missing_rag_section_unnoticed :
  outcome (load_config world_without_rag) = Ok config_without_rag
  /\ outcome (getitem config_without_rag "rag") = Raise (Exn KeyError (repr_key "rag"))
  /\ main world_without_rag =
       (banner
          ++ [Open config_path; Print config_loaded;
              Print (lit "Warning: notes.txt tidak ditemukan. Chatbot akan bekerja tanpa knowledge base.");
              Print rag_unavailable]
          ++ instructions
          ++ [Input prompt; LlmPredict (lit "hello");
              Print (newline ++ lit "[Bot]: ok: hello");
              Input prompt; Print bye],
        Ok tt)
  /\ ~ loop_not_entered (trace (main world_without_rag))
  /\ ~ no_answer_call (trace (main world_without_rag)).
Proof.
  split; [reflexivity|]. split; [reflexivity|]. split; [reflexivity|].
  split; intros H; vm_compute in H; discriminate.
Qed.

(** C10, amended.  A [KeyError] raised between the loading of the
    configuration and the loop is caught by the generic clause of [main]
    alone: [main] prints "[Error]: " and the quoted key, neither of the two
    fixed messages, never enters the loop and returns.  That is what happens
    to a configuration object without "data", and to one without "rag" when
    the knowledge file is there and read. *)
Theorem missing_key_is_generic_error (w : World) config :
  outcome (load_config w) = Ok config ->
  (forall e,
     outcome (assemble w config) = Raise e -> exn_cls e = KeyError ->
     main w =
       (banner ++ Open config_path :: Print config_loaded :: trace (assemble w config)
          ++ [Print (lit "[Error]: " ++ exn_str e)],
        Ok tt)
     /\ loop_not_entered (trace (main w)))
  /\ (forall dm,
        config = JDict dm -> dm !! lit "data" = None ->
        main w =
          (banner ++ [Open config_path; Print config_loaded;
                      Print (lit "[Error]: " ++ repr_key "data")],
           Ok tt)
        /\ loop_not_entered (trace (main w)))
  /\ (forall dm d p data,
        config = JDict dm -> dm !! lit "data" = Some d ->
        outcome (getitem d "knowledge_file") = Ok (JStr p) ->
        fs w p = Regular data ->
        dm !! lit "rag" = None ->
        main w =
          (banner ++ [Open config_path; Print config_loaded; Open (JStr p);
                      Print (lit "[Error]: " ++ repr_key "rag")],
           Ok tt)
        /\ loop_not_entered (trace (main w))).
Proof.
  intros Hl.
  assert (G : forall e,
     outcome (assemble w config) = Raise e -> exn_cls e = KeyError ->
     main w =
       (banner ++ Open config_path :: Print config_loaded :: trace (assemble w config)
          ++ [Print (lit "[Error]: " ++ exn_str e)],
        Ok tt)
     /\ loop_not_entered (trace (main w))).
  { intros e Ha Hc. destruct (main_assemble_raise w config e Hl Ha) as [Hm Hn].
    split; [| exact Hn]. rewrite Hm. unfold main_handler. now rewrite Hc. }
  split; [exact G|]. split.
  - intros dm -> Hd.
    assert (Hs : setup_rag_system w (JDict dm) = ([], Raise (Exn KeyError (repr_key "data")))).
    { unfold setup_rag_system. now rewrite (getitem_missing dm "data" Hd). }
    assert (Ha : assemble w (JDict dm) = ([], Raise (Exn KeyError (repr_key "data")))).
    { rewrite (assemble_setup_raise _ _ _ (f_equal snd Hs)). now rewrite Hs. }
    destruct (G (Exn KeyError (repr_key "data"))) as [Hm Hn];
      [now rewrite Ha | reflexivity |].
    split; [| exact Hn]. rewrite Hm, Ha. reflexivity.
  - intros dm d p data -> Hd Hk Hf Hr.
    assert (Hs : setup_rag_system w (JDict dm) =
                   ([Open (JStr p)], Raise (Exn KeyError (repr_key "rag")))).
    { rewrite (setup_present w (JDict dm) d (JStr p)).
      - assert (Ho : open_read w (JStr p) = ([Open (JStr p)], Ok data)).
        { unfold open_read. rewrite bind_emit, Hf. reflexivity. }
        rewrite (bind_ok _ _ data) by now rewrite Ho.
        assert (Hc : split_chunks w (JDict dm) data =
                       ([], Raise (Exn KeyError (repr_key "rag")))).
        { unfold split_chunks. now rewrite (getitem_missing dm "rag" Hr). }
        rewrite (bind_raise _ _ (Exn KeyError (repr_key "rag"))) by now rewrite Hc.
        now rewrite Ho, Hc.
      - simpl. now rewrite Hd.
      - exact Hk.
      - simpl. now rewrite Hf. }
    assert (Ha : assemble w (JDict dm) =
                   ([Open (JStr p)], Raise (Exn KeyError (repr_key "rag")))).
    { rewrite (assemble_setup_raise _ _ _ (f_equal snd Hs)). now rewrite Hs. }
    destruct (G (Exn KeyError (repr_key "rag"))) as [Hm Hn];
      [now rewrite Ha | reflexivity |].
    split; [| exact Hn]. rewrite Hm, Ha. reflexivity.
Qed.

Lemma missing_key_is_generic_error_witness :
  main world_without_data =
    (banner ++ [Open config_path; Print config_loaded; Print (lit "[Error]: 'data'")],
     Ok tt)
  /\ main world_without_rag_notes =
       (banner ++ [Open config_path; Print config_loaded; Open (JStr (lit "notes.txt"));
                   Print (lit "[Error]: 'rag'")],
        Ok tt).
Proof.
  destruct (missing_key_is_generic_error world_without_data config_without_data eq_refl)
    as (_ & H1 & _).
  destruct (missing_key_is_generic_error world_without_rag_notes config_without_rag eq_refl)
    as (_ & _ & H2).
  split.
  - eapply H1; reflexivity.
  - eapply (H2 _ sample_data (lit "notes.txt") notes_text); reflexivity.
Defined.

(** ** Further properties of a pass through the loop *)

Lemma lstrip_nil_inv s : lstrip s = [] -> forallb isspace s = true.
Proof.
  induction s as [|c s IH]; simpl; [reflexivity|].
  destruct (isspace c); [exact IH | discriminate].
Qed.

Lemma lstrip_head c s s' : lstrip s = c :: s' -> isspace c = false.
Proof.
  induction s as [|x s IH]; simpl; [discriminate|].
  destruct (isspace x) eqn:E; [exact IH|].
  intros H. injection H as -> _. exact E.
Qed.

Lemma forallb_rev_true {A} (f : A -> bool) l : forallb f (rev l) = true -> forallb f l = true.
Proof.
  rewrite !forallb_forall. intros H x Hx. apply H. now apply in_rev in Hx.
Qed.

(** Only a line of white space strips to the empty string. *)
Lemma strip_nil_inv s : strip s = [] -> forallb isspace s = true.
Proof.
  unfold strip, rstrip. intros H.
  assert (Hr : lstrip (rev (lstrip s)) = []).
  { destruct (lstrip (rev (lstrip s))) as [|x l]; [reflexivity|].
    simpl in H. now destruct (rev l). }
  apply lstrip_nil_inv, forallb_rev_true in Hr.
  destruct (lstrip s) as [|c s'] eqn:E; [now apply lstrip_nil_inv|].
  simpl in Hr. apply andb_true_iff in Hr as [Hc _].
  now rewrite (lstrip_head c s s' E) in Hc.
Qed.

Lemma is_exit_line_spec w raw :
  is_exit_line w raw = true <-> In (lower (unicode_lower w) (strip raw)) exit_words.
Proof.
  unfold is_exit_line, str_in. rewrite bool_decide_eq_true. apply list_elem_of_In.
Qed.

(** X2. With a chain or a chat model at hand, a pass asks for no answer
    exactly when its line is white space only or an exit word: every other
    line reaches the answerer. *)
Theorem answer_call_iff_real_query (w : World) qa llm t raw :
  qa <> None \/ llm <> None ->
  no_answer_call (trace (iteration w qa llm t (Some raw)))
  <-> (forallb isspace raw = true
       \/ In (lower (unicode_lower w) (strip raw)) exit_words).
Proof.
  intros Hav. rewrite iteration_line. cbn [trace fst]. split.
  - intros H.
    destruct (is_exit_line w raw) eqn:Hx; [right; now apply is_exit_line_spec|].
    left. destruct (strip raw) as [|c q] eqn:Hs; [now apply strip_nil_inv|].
    exfalso. unfold is_exit_line in Hx.
    assert (Hne : strip raw <> []) by now rewrite Hs.
    assert (Hin : exists ev, In ev (trace (turn w qa llm t raw)) /\ is_answer_call ev = true).
    { destruct (outcome (answer w qa llm t (strip raw))) as [text|e] eqn:Ha.
      - rewrite (turn_answer_ok _ _ _ _ _ _ Hne Hx Ha). cbn [trace fst].
        destruct qa as [chain|]; [| destruct llm as [m|]; [| destruct Hav; congruence]].
        + exists (QaRun (strip raw)). simpl. auto.
        + exists (LlmPredict (strip raw)). simpl. auto.
      - rewrite (turn_answer_raise _ _ _ _ _ _ Hne Hx Ha). cbn [trace fst].
        destruct qa as [chain|]; [| destruct llm as [m|]; [| destruct Hav; congruence]].
        + exists (QaRun (strip raw)). simpl. auto.
        + exists (LlmPredict (strip raw)). simpl. auto. }
    destruct Hin as (ev & Hin & Hev).
    unfold no_answer_call, free_of in H. simpl in H.
    rewrite forallb_forall in H. specialize (H ev Hin). now rewrite Hev in H.
  - intros [H|H].
    + now rewrite (turn_blank _ _ _ _ _ H).
    + now rewrite (turn_exit _ _ _ _ _ H).
Qed.

Lemma answer_call_iff_real_query_witness :
  no_answer_call
    (trace (iteration (world_plain [] echo) None (Some sample_model) 0 (Some (lit "  "))))
  /\ ~ no_answer_call
       (trace (iteration (world_plain [] echo) None (Some sample_model) 0 (Some (lit " a ")))).
Proof.
  split.
  - apply (answer_call_iff_real_query (world_plain [] echo) None (Some sample_model) 0
             (lit "  ")); [right; discriminate | left; reflexivity].
  - intros H.
    apply (answer_call_iff_real_query (world_plain [] echo) None (Some sample_model) 0
             (lit " a ")) in H; [| right; discriminate].
    destruct H as [H|H]; [discriminate H|].
    vm_compute in H. intuition discriminate.
Defined.

(** X3. A line that is a query is sent stripped of its outer white space
    and otherwise unchanged (its case is kept).  When a chain exists the
    query goes to [qa.run] alone, whatever chat model is held beside it;
    without a chain it goes to [llm.predict].  The text that comes back is
    printed after "[Bot]: " and the loop goes on. *)
Theorem answered_turn_prints_reply (w : World) t raw text :
  strip raw <> [] ->
  str_in (lower (unicode_lower w) (strip raw)) exit_words = false ->
  (forall chain llm,
     qa_run w chain t (strip raw) = Ok text ->
     iteration w (Some chain) llm t (Some raw) =
       ([Input prompt; QaRun (strip raw); Print (newline ++ lit "[Bot]: " ++ text)],
        Ok Continue))
  /\ (forall m,
        llm_predict w m t (strip raw) = Ok text ->
        iteration w None (Some m) t (Some raw) =
          ([Input prompt; LlmPredict (strip raw); Print (newline ++ lit "[Bot]: " ++ text)],
           Ok Continue)).
Proof.
  intros Hne Hx. split.
  - intros chain llm H. rewrite iteration_line.
    rewrite (turn_answer_ok _ _ _ _ _ text Hne Hx) by (now rewrite answer_rag).
    now rewrite answer_rag.
  - intros m H. rewrite iteration_line.
    rewrite (turn_answer_ok _ _ _ _ _ text Hne Hx) by (now rewrite answer_plain).
    now rewrite answer_plain.
Qed.

Lemma answered_turn_prints_reply_witness :
  iteration (world_rag [] echo) (Some sample_chain) (Some sample_model) 0
    (Some (lit "  What is RAG?  ")) =
    ([Input prompt; QaRun (lit "What is RAG?");
      Print (newline ++ lit "[Bot]: " ++ lit "ok: What is RAG?")],
     Ok Continue).
Proof.
  destruct (answered_turn_prints_reply (world_rag [] echo) 0 (lit "  What is RAG?  ")
              (lit "ok: What is RAG?")) as [H _].
  - discriminate.
  - reflexivity.
  - apply H. reflexivity.
Defined.

(** X4. An exception of the answer call that is no instance of [Exception]
    (a keyboard interrupt, a system exit) is caught by no clause: the pass
    prints nothing after the call, the loop is left without reading the
    lines that remain, and [main] ends with that exception, without any
    message of its own. *)
Theorem interrupt_ends_session (w : World) qa llm t raw e :
  strip raw <> [] ->
  str_in (lower (unicode_lower w) (strip raw)) exit_words = false ->
  outcome (answer w qa llm t (strip raw)) = Raise e ->
  is_Exception (exn_cls e) = false ->
  iteration w qa llm t (Some raw) =
    (Input prompt :: trace (answer w qa llm t (strip raw)), Raise e)
  /\ state_after (iteration w qa llm t (Some raw)) = Terminated
  /\ (forall rest,
        session_loop w qa llm t (raw :: rest) =
          (Input prompt :: trace (answer w qa llm t (strip raw)), Raise e))
  /\ (forall rest,
        t = 0%nat -> outcome (startup w) = Ok (qa, llm) -> stdin w = raw :: rest ->
        main w =
          (banner ++ trace (startup w)
             ++ Input prompt :: trace (answer w qa llm t (strip raw)),
           Raise e)).
Proof.
  intros Hne Hx Ha He.
  assert (E : iteration w qa llm t (Some raw) =
                (Input prompt :: trace (answer w qa llm t (strip raw)), Raise e)).
  { rewrite iteration_line, (turn_answer_raise _ _ _ _ _ _ Hne Hx Ha).
    unfold turn_handler. rewrite He. cbn [trace outcome fst snd].
    now rewrite app_nil_r. }
  assert (L : forall rest, session_loop w qa llm t (raw :: rest) =
                (Input prompt :: trace (answer w qa llm t (strip raw)), Raise e)).
  { intros rest. rewrite (session_loop_raise _ _ _ _ _ _ e) by now rewrite E.
    now rewrite E. }
  split; [exact E|]. split; [now rewrite E|]. split; [exact L|].
  intros rest -> Hs Hin.
  rewrite (main_enters_loop w qa llm Hs), Hin, L.
  rewrite (try_except_raise _ _ e) by reflexivity.
  rewrite (proj2 (main_handler_cases e) He). cbn [trace outcome fst snd].
  now rewrite app_nil_r.
Qed.

Lemma interrupt_ends_session_witness :
  main (world_rag [lit "What is RAG?"; lit "never read"] interrupted) =
    (banner
       ++ [Open config_path; Print config_loaded; Open (JStr (lit "notes.txt"));
           EmbedIndex [notes_text]; Print rag_ready]
       ++ instructions
       ++ [Input prompt; QaRun (lit "What is RAG?")],
     Raise (Exn KeyboardInterrupt [])).
Proof.
  destruct (interrupt_ends_session
              (world_rag [lit "What is RAG?"; lit "never read"] interrupted)
              (Some sample_chain) (Some sample_model) 0 (lit "What is RAG?")
              (Exn KeyboardInterrupt [])) as (_ & _ & _ & H).
  - discriminate.
  - reflexivity.
  - reflexivity.
  - reflexivity.
  - rewrite (H [lit "never read"]); reflexivity.
Defined.

(** ** What a session sends to the answerer *)

Lemma queries_in_app t1 t2 : queries_in (t1 ++ t2) = queries_in t1 ++ queries_in t2.
Proof. apply omap_app. Qed.

Lemma queries_in_free tr : free_of is_answer_call tr -> queries_in tr = [].
Proof.
  unfold free_of, queries_in. induction tr as [|ev tr IH]; [reflexivity|].
  simpl. intros H. apply andb_true_iff in H as [Hev Htr].
  destruct ev; simpl in *; try discriminate; auto.
Qed.

Lemma queries_answer w qa llm t q :
  qa <> None \/ llm <> None -> queries_in (trace (answer w qa llm t q)) = [q].
Proof.
  intros H. destruct qa as [chain|]; [reflexivity|].
  destruct llm as [m|]; [reflexivity | destruct H; congruence].
Qed.

Lemma queries_turn_handler e : queries_in (trace (turn_handler e)) = [].
Proof. unfold turn_handler. now destruct (is_Exception (exn_cls e)). Qed.

(** The three ways a pass over a line can go. *)
Lemma iteration_cases w qa llm t raw :
  (is_exit_line w raw = true
   /\ iteration w qa llm t (Some raw) = ([Input prompt; Print bye], Ok Break))
  \/ (is_exit_line w raw = false /\ strip raw = []
      /\ iteration w qa llm t (Some raw) = ([Input prompt], Ok Continue))
  \/ (is_exit_line w raw = false /\ strip raw <> []
      /\ exists tl,
           queries_in tl = []
           /\ trace (iteration w qa llm t (Some raw)) =
                Input prompt :: trace (answer w qa llm t (strip raw)) ++ tl
           /\ (outcome (iteration w qa llm t (Some raw)) = Ok Continue
               \/ exists e,
                    outcome (answer w qa llm t (strip raw)) = Raise e
                    /\ is_Exception (exn_cls e) = false
                    /\ outcome (iteration w qa llm t (Some raw)) = Raise e)).
Proof.
  rewrite iteration_line.
  destruct (is_exit_line w raw) eqn:Hx.
  - left. split; [reflexivity|].
    now rewrite (turn_exit _ _ _ _ _ (proj1 (is_exit_line_spec w raw) Hx)).
  - right. destruct (strip raw) as [|c q] eqn:Hs.
    + left. repeat split. unfold turn. fold (is_exit_line w raw). now rewrite Hx, Hs.
    + right. split; [reflexivity|]. split; [discriminate|].
      assert (Hne : strip raw <> []) by now rewrite Hs.
      rewrite <- Hs.
      destruct (outcome (answer w qa llm t (strip raw))) as [text|e] eqn:Ha.
      * rewrite (turn_answer_ok _ _ _ _ _ _ Hne Hx Ha). cbn [trace outcome fst snd].
        eexists. split; [| split; [reflexivity | now left]]. reflexivity.
      * rewrite (turn_answer_raise _ _ _ _ _ _ Hne Hx Ha). cbn [trace outcome fst snd].
        exists (trace (turn_handler e)). split; [apply queries_turn_handler|].
        split; [reflexivity|].
        unfold turn_handler. destruct (is_Exception (exn_cls e)) eqn:He; simpl.
        -- now left.
        -- right. exists e. auto.
Qed.

Lemma expected_queries_sound w lines :
  Forall (fun q => q <> []
                   /\ str_in (lower (unicode_lower w) q) exit_words = false
                   /\ exists raw, In raw lines /\ q = strip raw)
         (expected_queries w lines).
Proof.
  induction lines as [|raw rest IH]; [constructor|]. simpl.
  assert (IH' : Forall (fun q => q <> []
                   /\ str_in (lower (unicode_lower w) q) exit_words = false
                   /\ exists raw0, In raw0 (raw :: rest) /\ q = strip raw0)
                 (expected_queries w rest)).
  { eapply Forall_impl; [exact IH|]. intros q (H1 & H2 & raw0 & H3 & H4).
    repeat split; try assumption. exists raw0. split; [now right | exact H4]. }
  destruct (is_exit_line w raw) eqn:Hx; [constructor|].
  destruct (strip raw) as [|c q] eqn:Hs; [exact IH'|].
  constructor; [| exact IH'].
  split; [discriminate|]. split.
  - unfold is_exit_line in Hx. now rewrite Hs in Hx.
  - exists raw. split; [now left | now rewrite Hs].
Qed.

Lemma queries_session_prefix w qa llm lines :
  qa <> None \/ llm <> None ->
  forall t,
    queries_in (trace (session_loop w qa llm t lines)) `prefix_of` expected_queries w lines.
Proof.
  intros Hav. induction lines as [|raw rest IH]; intros t; [apply prefix_nil|].
  simpl expected_queries.
  destruct (iteration_cases w qa llm t raw)
    as [[Hx E]|[(Hx & Hs & E)|(Hx & Hs & tl & Htl & Etr & Hout)]].
  - rewrite Hx, session_loop_break by now rewrite E. rewrite E. apply prefix_nil.
  - rewrite Hx, Hs, session_loop_continue by now rewrite E. rewrite E.
    cbn [trace fst]. apply (IH (S t)).
  - rewrite Hx. destruct (strip raw) as [|c q] eqn:Hq; [contradiction|].
    destruct Hout as [Hc|(e & _ & _ & He)].
    + rewrite (session_loop_continue _ _ _ _ _ _ Hc). cbn [trace fst].
      rewrite Etr. change (Input prompt :: ?l) with ([Input prompt] ++ l).
      rewrite !queries_in_app, Htl, (queries_answer _ _ _ _ _ Hav), app_nil_r.
      simpl. apply prefix_cons, (IH (S t)).
    + rewrite (session_loop_raise _ _ _ _ _ _ _ He). cbn [trace fst].
      rewrite Etr. change (Input prompt :: ?l) with ([Input prompt] ++ l).
      rewrite !queries_in_app, Htl, (queries_answer _ _ _ _ _ Hav).
      simpl. apply prefix_cons, prefix_nil.
Qed.

(** X5. The queries that a session sends to the answerer are, in order, a
    prefix of the stripped non-empty lines that come before the first exit
    word.  So the answerer never receives an empty query or an exit word,
    nor a line that follows an exit word, nor anything that was not typed. *)
Theorem session_sends_only_typed_queries (w : World) qa llm t lines :
  queries_in (trace (session_loop w qa llm t lines)) `prefix_of` expected_queries w lines
  /\ Forall (fun q => q <> []
                      /\ str_in (lower (unicode_lower w) q) exit_words = false
                      /\ exists raw, In raw lines /\ q = strip raw)
            (queries_in (trace (session_loop w qa llm t lines))).
Proof.
  assert (P : queries_in (trace (session_loop w qa llm t lines))
                `prefix_of` expected_queries w lines).
  { destruct qa as [chain|].
    - apply queries_session_prefix. left; discriminate.
    - destruct llm as [m|].
      + apply queries_session_prefix. right; discriminate.
      + rewrite queries_in_free; [apply prefix_nil|].
        apply free_of_session; [reflexivity | reflexivity |]. reflexivity. }
  split; [exact P|].
  destruct P as [k Hk]. pose proof (expected_queries_sound w lines) as S.
  rewrite Hk in S. now apply Forall_app in S as [S _].
Qed.

(** X6. When the answer calls fail with instances of [Exception] only, a
    session with an answerer sends exactly the stripped non-empty lines that
    come before the first exit word, each once and in the order typed; it
    ends by [break] when a line is an exit word and by [EOFError] at the end
    of the stream otherwise. *)
Theorem session_answers_each_query_in_order (w : World) qa llm lines :
  qa <> None \/ llm <> None ->
  (forall t q e,
     outcome (answer w qa llm t q) = Raise e -> is_Exception (exn_cls e) = true) ->
  forall t,
    queries_in (trace (session_loop w qa llm t lines)) = expected_queries w lines
    /\ outcome (session_loop w qa llm t lines) =
         if existsb (is_exit_line w) lines then Ok tt
         else Raise (Exn EOFError eof_message).
Proof.
  intros Hav Hex. induction lines as [|raw rest IH]; intros t; [split; reflexivity|].
  simpl expected_queries. simpl existsb.
  destruct (iteration_cases w qa llm t raw)
    as [[Hx E]|[(Hx & Hs & E)|(Hx & Hs & tl & Htl & Etr & Hout)]].
  - rewrite Hx, session_loop_break by now rewrite E. rewrite E. split; reflexivity.
  - rewrite Hx, Hs, session_loop_continue by now rewrite E. rewrite E.
    cbn [trace outcome fst snd orb]. apply (IH (S t)).
  - rewrite Hx. destruct (strip raw) as [|c q] eqn:Hq; [contradiction|].
    destruct Hout as [Hc|(e & Ha & He & _)].
    + rewrite (session_loop_continue _ _ _ _ _ _ Hc). cbn [trace outcome fst snd orb].
      destruct (IH (S t)) as [IH1 IH2]. split; [| exact IH2].
      rewrite Etr. change (Input prompt :: ?l) with ([Input prompt] ++ l).
      rewrite !queries_in_app, Htl, (queries_answer _ _ _ _ _ Hav), app_nil_r, IH1.
      reflexivity.
    + rewrite (Hex _ _ _ Ha) in He. discriminate.
Qed.

Lemma session_answers_each_query_in_order_witness :
  queries_in
    (trace (session_loop (world_rag [] failing) (Some sample_chain) (Some sample_model) 0
              [lit " one "; lit ""; lit "Two"; lit "EXIT"; lit "three"]))
    = [lit "one"; lit "Two"]
  /\ outcome
       (session_loop (world_rag [] failing) (Some sample_chain) (Some sample_model) 0
          [lit " one "; lit ""; lit "Two"; lit "EXIT"; lit "three"])
       = Ok tt.
Proof.
  apply (session_answers_each_query_in_order (world_rag [] failing)
           (Some sample_chain) (Some sample_model)
           [lit " one "; lit ""; lit "Two"; lit "EXIT"; lit "three"]).
  - left; discriminate.
  - intros t q e H. injection H as <-. reflexivity.
Defined.

(** ** Further properties of the setup *)

Lemma free_of_build_vectorstore p w config docs :
  p (EmbedIndex docs) = false -> free_of p (trace (build_vectorstore w config docs)).
Proof. intros H. unfold build_vectorstore. quiet. Qed.

Lemma free_of_setup p w config :
  (forall v, p (Open v) = false) ->
  (forall docs, p (EmbedIndex docs) = false) ->
  (forall kf, p (Print (absence_warning w kf)) = false) ->
  free_of p (trace (setup_rag_system w config)).
Proof.
  intros Ho He Hw. unfold setup_rag_system. quiet.
  destruct (negb _); quiet;
    auto using free_of_open_read, free_of_split_chunks, free_of_build_vectorstore,
               free_of_build_retriever, free_of_new_chat_model.
Qed.

Lemma absence_warning_is_no_notice w kf : is_notice (Print (absence_warning w kf)) = false.
Proof.
  apply bool_decide_eq_false. unfold absence_warning. intros H.
  vm_compute in H. discriminate.
Qed.

Lemma notice_free_main_handler e : free_of is_notice (trace (main_handler e)).
Proof.
  unfold main_handler.
  destruct (exn_cls e); simpl; try reflexivity;
    apply free_of_emit, bool_decide_eq_false; intros H; vm_compute in H; discriminate.
Qed.

(** X7. An exception that [setup_rag_system] raises, whatever its cause,
    ends the startup: [main] shows what the setup did, hands the exception
    to its [except] clauses, and neither enters the loop, nor asks for an
    answer, nor falls back to the plain mode. *)
Theorem setup_failure_is_fatal (w : World) config e :
  outcome (load_config w) = Ok config ->
  outcome (setup_rag_system w config) = Raise e ->
  main w =
    (banner ++ Open config_path :: Print config_loaded
       :: trace (setup_rag_system w config) ++ trace (main_handler e),
     outcome (main_handler e))
  /\ loop_not_entered (trace (main w))
  /\ no_answer_call (trace (main w))
  /\ free_of is_notice (trace (main w)).
Proof.
  intros Hl Hs.
  pose proof (assemble_setup_raise w config e Hs) as Ha.
  destruct (main_assemble_raise w config e Hl) as [Hm Hn]; [now rewrite Ha|].
  rewrite Ha in Hm. cbn [trace fst] in Hm.
  split; [exact Hm|]. split; [exact Hn|].
  rewrite Hm. cbn [trace fst].
  change (Open config_path :: Print config_loaded :: ?l)
    with ([Open config_path; Print config_loaded] ++ l).
  split.
  - apply free_of_app; split; [reflexivity|].
    apply free_of_app; split; [reflexivity|].
    apply free_of_app; split.
    + apply free_of_setup; reflexivity.
    + now apply free_of_main_handler.
  - apply free_of_app; split; [reflexivity|].
    apply free_of_app; split; [reflexivity|].
    apply free_of_app; split.
    + apply free_of_setup; intros;
        first [apply absence_warning_is_no_notice | reflexivity].
    + apply notice_free_main_handler.
Qed.

Lemma setup_failure_is_fatal_witness :
  main (with_splitter_failure (world_rag [lit "hello"] echo) overlap_too_large) =
    (banner ++ [Open config_path; Print config_loaded; Open (JStr (lit "notes.txt"));
                Print (lit "[Error]: " ++ exn_str overlap_too_large)],
     Ok tt).
Proof.
  destruct (setup_failure_is_fatal
              (with_splitter_failure (world_rag [lit "hello"] echo) overlap_too_large)
              sample_config overlap_too_large eq_refl eq_refl) as [H _].
  rewrite H. reflexivity.
Defined.

Lemma open_read_regular w p data :
  fs w p = Regular data -> open_read w (JStr p) = ([Open (JStr p)], Ok data).
Proof. intros H. unfold open_read. rewrite bind_emit, H. reflexivity. Qed.

Lemma open_read_faulty w p e :
  fs w p = Faulty e -> open_read w (JStr p) = ([Open (JStr p)], Raise e).
Proof. intros H. unfold open_read. rewrite bind_emit, H. reflexivity. Qed.

(** X8. A knowledge file that exists and cannot be read is no absent file:
    [setup_rag_system] raises the error of the read, prints no warning and
    returns no pair, and nothing was sent to the provider. *)
Theorem unreadable_knowledge_file_is_an_error (w : World) config d p e :
  outcome (getitem config "data") = Ok d ->
  outcome (getitem d "knowledge_file") = Ok (JStr p) ->
  fs w p = Faulty e ->
  setup_rag_system w config = ([Open (JStr p)], Raise e)
  /\ (outcome (load_config w) = Ok config ->
        main w =
          (banner ++ [Open config_path; Print config_loaded; Open (JStr p)]
             ++ trace (main_handler e),
           outcome (main_handler e))).
Proof.
  intros Hd Hk Hf.
  assert (Hs : setup_rag_system w config = ([Open (JStr p)], Raise e)).
  { rewrite (setup_present w config d (JStr p) Hd Hk) by (simpl; now rewrite Hf).
    rewrite (bind_raise _ _ e) by now rewrite (open_read_faulty w p e Hf).
    now rewrite (open_read_faulty w p e Hf). }
  split; [exact Hs|]. intros Hl.
  pose proof (assemble_setup_raise w config e (f_equal snd Hs)) as Ha.
  destruct (main_assemble_raise w config e Hl) as [Hm _]; [now rewrite Ha|].
  rewrite Hm, Ha, Hs. reflexivity.
Qed.

Lemma unreadable_knowledge_file_is_an_error_witness :
  main world_notes_unreadable =
    (banner ++ [Open config_path; Print config_loaded; Open (JStr (lit "notes.txt"));
                Print (lit "[Error]: " ++ exn_str permission_denied)],
     Ok tt).
Proof.
  destruct (unreadable_knowledge_file_is_an_error world_notes_unreadable sample_config
              sample_data (lit "notes.txt") permission_denied eq_refl eq_refl eq_refl)
    as [_ H].
  rewrite (H eq_refl). reflexivity.
Defined.

(** X9. When the chunking fails (a key of the [rag] section is missing, the
    splitter rejects its sizes, the split itself fails), the setup stops
    after the read of the knowledge file: the embedding provider is never
    called. *)
Theorem chunking_failure_sends_nothing (w : World) config d p data e :
  outcome (getitem config "data") = Ok d ->
  outcome (getitem d "knowledge_file") = Ok (JStr p) ->
  fs w p = Regular data ->
  outcome (split_chunks w config data) = Raise e ->
  setup_rag_system w config = ([Open (JStr p)], Raise e)
  /\ (outcome (load_config w) = Ok config ->
        free_of is_retrieval_call (trace (main w))).
Proof.
  intros Hd Hk Hf Hc.
  assert (Hs : setup_rag_system w config = ([Open (JStr p)], Raise e)).
  { rewrite (setup_present w config d (JStr p) Hd Hk) by (simpl; now rewrite Hf).
    rewrite (bind_ok _ _ data) by now rewrite (open_read_regular w p data Hf).
    rewrite (bind_raise _ _ e Hc), trace_split_chunks.
    now rewrite (open_read_regular w p data Hf). }
  split; [exact Hs|]. intros Hl.
  pose proof (assemble_setup_raise w config e (f_equal snd Hs)) as Ha.
  destruct (main_assemble_raise w config e Hl) as [Hm _]; [now rewrite Ha|].
  rewrite Hm, Ha, Hs. cbn [trace fst].
  apply free_of_app; split; [reflexivity|].
  change (Open config_path :: Print config_loaded :: ?l)
    with ([Open config_path; Print config_loaded] ++ l).
  apply free_of_app; split; [reflexivity|].
  apply free_of_app; split; [reflexivity|].
  now apply free_of_main_handler.
Qed.

Lemma chunking_failure_sends_nothing_witness :
  free_of is_retrieval_call
    (trace (main (with_splitter_failure (world_rag [lit "hello"] echo) overlap_too_large)))
  /\ free_of is_retrieval_call (trace (main world_without_rag_notes)).
Proof.
  split.
  - apply (chunking_failure_sends_nothing
             (with_splitter_failure (world_rag [lit "hello"] echo) overlap_too_large)
             sample_config sample_data (lit "notes.txt") notes_text overlap_too_large);
      reflexivity.
  - apply (chunking_failure_sends_nothing world_without_rag_notes config_without_rag
             sample_data (lit "notes.txt") notes_text (Exn KeyError (repr_key "rag")));
      reflexivity.
Defined.

Ltac step_getitem :=
  repeat match goal with
  | |- context [bind (getitem ?v ?k) _] =>
      destruct (outcome (getitem v k)) eqn:?;
      [erewrite getitem_ok by eassumption
      | erewrite getitem_raise by eassumption; exact I]
  end.

Lemma build_vectorstore_shape w config docs :
  match outcome (build_vectorstore w config docs) with
  | Ok vs => trace (build_vectorstore w config docs) = [EmbedIndex docs]
             /\ store_docs vs = docs
  | Raise _ => True
  end.
Proof.
  unfold build_vectorstore. step_getitem.
  destruct (embeddings_init w _ _); [exact I|]. cbn [construct].
  rewrite bind_ret_l, bind_emit. cbn [trace outcome fst snd].
  destruct (faiss_from_documents w docs _); simpl; auto.
Qed.

Lemma build_retriever_shape w config vs :
  match outcome (build_retriever w config vs) with
  | Ok r => trace (build_retriever w config vs) = [] /\ retriever_store r = vs
  | Raise _ => True
  end.
Proof.
  unfold build_retriever. step_getitem.
  destruct (as_retriever w vs _); simpl; auto.
Qed.

Section RagSuccess.
Variables (w : World) (config d : json) (p data : pystr) (docs : list pystr).
Variables (vs : VectorStore) (r : Retriever) (m : ChatModel).
Hypothesis config_loads : outcome (load_config w) = Ok config.
Hypothesis has_data : outcome (getitem config "data") = Ok d.
Hypothesis has_path : outcome (getitem d "knowledge_file") = Ok (JStr p).
Hypothesis file_present : fs w p = Regular data.
Hypothesis chunks : outcome (split_chunks w config data) = Ok docs.
Hypothesis indexed : outcome (build_vectorstore w config docs) = Ok vs.
Hypothesis retrieving : outcome (build_retriever w config vs) = Ok r.
Hypothesis chatting : outcome (new_chat_model w config) = Ok m.
Hypothesis chained : qa_from_chain_type w m r = None.

Lemma setup_succeeds :
  setup_rag_system w config =
    ([Open (JStr p); EmbedIndex docs],
     Ok (Some {| qa_llm := m; qa_retriever := r |}, Some m)).
Proof.
  rewrite (setup_present w config d (JStr p) has_data has_path)
    by (simpl; now rewrite file_present).
  pose proof (build_vectorstore_shape w config docs) as Hv. rewrite indexed in Hv.
  pose proof (build_retriever_shape w config vs) as Hr. rewrite retrieving in Hr.
  rewrite (bind_ok _ _ data) by now rewrite (open_read_regular w p data file_present).
  rewrite (bind_ok _ _ docs chunks), trace_split_chunks.
  rewrite (bind_ok _ _ vs indexed), (proj1 Hv).
  rewrite (bind_ok _ _ r retrieving), (proj1 Hr).
  rewrite (bind_ok _ _ m chatting), trace_new_chat_model.
  rewrite chained, (open_read_regular w p data file_present). reflexivity.
Qed.

(** X10. When every step of the setup succeeds, [setup_rag_system] reads
    the knowledge file once, sends the chunks of the splitter, and no other
    text, to the provider once, and returns a chain together with the very
    chat model the chain holds.  [main] keeps that model, announces the
    retrieval mode and runs the loop with the chain, so that [llm.predict]
    is never called in the whole run. *)
Theorem rag_setup_succeeds :
  setup_rag_system w config =
    ([Open (JStr p); EmbedIndex docs],
     Ok (Some {| qa_llm := m; qa_retriever := r |}, Some m))
  /\ store_docs (retriever_store r) = docs
  /\ main w =
       (banner
          ++ [Open config_path; Print config_loaded; Open (JStr p); EmbedIndex docs;
              Print rag_ready]
          ++ instructions
          ++ trace (try_except
                      (session_loop w (Some {| qa_llm := m; qa_retriever := r |})
                         (Some m) 0 (stdin w))
                      main_handler),
        outcome (try_except
                   (session_loop w (Some {| qa_llm := m; qa_retriever := r |})
                      (Some m) 0 (stdin w))
                   main_handler))
  /\ free_of is_plain_call (trace (main w)).
Proof.
  pose proof setup_succeeds as Hs.
  pose proof (build_vectorstore_shape w config docs) as Hv. rewrite indexed in Hv.
  pose proof (build_retriever_shape w config vs) as Hr. rewrite retrieving in Hr.
  assert (Ha : assemble w config =
                 ([Open (JStr p); EmbedIndex docs; Print rag_ready] ++ instructions,
                  Ok (Some {| qa_llm := m; qa_retriever := r |}, Some m))).
  { unfold assemble. rewrite Hs. reflexivity. }
  assert (Hst : startup w =
                 (Open config_path :: Print config_loaded
                    :: [Open (JStr p); EmbedIndex docs; Print rag_ready] ++ instructions,
                  Ok (Some {| qa_llm := m; qa_retriever := r |}, Some m))).
  { rewrite (startup_loaded w config config_loads). now rewrite Ha. }
  assert (Hm : main w =
       (banner
          ++ [Open config_path; Print config_loaded; Open (JStr p); EmbedIndex docs;
              Print rag_ready]
          ++ instructions
          ++ trace (try_except
                      (session_loop w (Some {| qa_llm := m; qa_retriever := r |})
                         (Some m) 0 (stdin w))
                      main_handler),
        outcome (try_except
                   (session_loop w (Some {| qa_llm := m; qa_retriever := r |})
                      (Some m) 0 (stdin w))
                   main_handler))).
  { rewrite (main_enters_loop w _ _ (f_equal snd Hst)). rewrite Hst.
    cbn [trace outcome fst snd app]. reflexivity. }
  split; [exact Hs|]. split; [now rewrite (proj2 Hr), (proj2 Hv)|].
  split; [exact Hm|].
  rewrite Hm. cbn [trace fst].
  apply free_of_app; split; [reflexivity|].
  apply free_of_app; split; [reflexivity|].
  apply free_of_app; split; [reflexivity|].
  apply free_of_try.
  - apply rag_session_never_predicts.
  - intros e. now apply free_of_main_handler.
Qed.
End RagSuccess.

Lemma rag_setup_succeeds_witness :
  setup_rag_system (world_rag [lit "What is RAG?"; lit "quit"] echo) sample_config =
    ([Open (JStr (lit "notes.txt")); EmbedIndex [notes_text]],
     Ok (Some sample_chain, Some sample_model))
  /\ free_of is_plain_call (trace (main (world_rag [lit "What is RAG?"; lit "quit"] echo))).
Proof.
  destruct (rag_setup_succeeds (world_rag [lit "What is RAG?"; lit "quit"] echo)
              sample_config sample_data (lit "notes.txt") notes_text [notes_text]
              (retriever_store (qa_retriever sample_chain)) (qa_retriever sample_chain)
              sample_model eq_refl eq_refl eq_refl eq_refl eq_refl eq_refl eq_refl
              eq_refl eq_refl) as (H1 & _ & _ & H2).
  split; [exact H1 | exact H2].
Defined.

(** ** Which message a failure of the startup gets *)

(** X11. The clauses for [FileNotFoundError] and [JSONDecodeError] cover
    the whole [try] block: once the configuration is loaded, an exception of
    one of these two classes raised by the setup (a file that a library
    misses, a reply of the provider that does not parse) is still reported
    as a missing or malformed [config.json]. *)
Theorem later_errors_blame_config (w : World) config e :
  outcome (load_config w) = Ok config ->
  outcome (assemble w config) = Raise e ->
  (exn_cls e = FileNotFoundError ->
     main w =
       (banner ++ Open config_path :: Print config_loaded :: trace (assemble w config)
          ++ [Print config_missing],
        Ok tt))
  /\ (exn_cls e = JSONDecodeError ->
        main w =
          (banner ++ Open config_path :: Print config_loaded :: trace (assemble w config)
             ++ [Print config_invalid],
           Ok tt)).
Proof.
  intros Hl Ha. destruct (main_assemble_raise w config e Hl Ha) as [Hm _].
  split; intros Hc; rewrite Hm; unfold main_handler; now rewrite Hc.
Qed.

Lemma later_errors_blame_config_witness :
  main world_tokenizer_missing =
    (banner ++ [Open config_path; Print config_loaded; Open (JStr (lit "notes.txt"));
                Print config_missing],
     Ok tt).
Proof.
  destruct (later_errors_blame_config world_tokenizer_missing sample_config
              tokenizer_missing eq_refl eq_refl) as [H _].
  rewrite (H eq_refl). reflexivity.
Defined.

Lemma getitem_non_object config k :
  (forall dm, config <> JDict dm) ->
  exists msg, getitem config k = ([], Raise (Exn TypeError msg)).
Proof.
  intros H. destruct config; simpl; eauto. now destruct (H d).
Qed.

(** X12. A [config.json] that is valid JSON and no object (an array, a
    string, a number, [null]) loads without complaint; the first subscript
    of the setup then raises [TypeError], which the generic clause prints:
    the loop is not entered and [main] returns. *)
Theorem non_object_config_is_type_error (w : World) config :
  outcome (load_config w) = Ok config ->
  (forall dm, config <> JDict dm) ->
  exists msg,
    setup_rag_system w config = ([], Raise (Exn TypeError msg))
    /\ main w =
         (banner ++ [Open config_path; Print config_loaded; Print (lit "[Error]: " ++ msg)],
          Ok tt).
Proof.
  intros Hl Hn. destruct (getitem_non_object config "data" Hn) as [msg Hg].
  exists msg.
  assert (Hs : setup_rag_system w config = ([], Raise (Exn TypeError msg))).
  { unfold setup_rag_system. now rewrite Hg. }
  split; [exact Hs|].
  pose proof (assemble_setup_raise w config _ (f_equal snd Hs)) as Ha.
  destruct (main_assemble_raise w config (Exn TypeError msg) Hl) as [Hm _];
    [now rewrite Ha|].
  rewrite Hm, Ha, Hs. reflexivity.
Qed.

Lemma non_object_config_is_type_error_witness :
  exists msg,
    main world_config_is_list =
      (banner ++ [Open config_path; Print config_loaded; Print (lit "[Error]: " ++ msg)],
       Ok tt).
Proof.
  destruct (non_object_config_is_type_error world_config_is_list (JList []) eq_refl)
    as (msg & _ & H).
  - intros dm. discriminate.
  - exists msg. exact H.
Defined.

(** X13. The plain mode needs the [openai] section as well: with the
    knowledge file absent and no "openai" key, [main] prints both warnings
    of the fallback and then "[Error]: 'openai'"; the loop is not
    entered. *)
Theorem plain_mode_needs_openai (w : World) dm d kf :
  outcome (load_config w) = Ok (JDict dm) ->
  outcome (getitem (JDict dm) "data") = Ok d ->
  outcome (getitem d "knowledge_file") = Ok kf ->
  outcome (os_path_exists w kf) = Ok false ->
  dm !! lit "openai" = None ->
  main w =
    (banner ++ degraded_prefix w kf ++ [Print (lit "[Error]: " ++ repr_key "openai")],
     Ok tt)
  /\ loop_not_entered (trace (main w)).
Proof.
  intros Hl Hd Hk Hx Ho.
  pose proof (setup_absent w (JDict dm) d kf Hd Hk Hx) as Hs.
  pose proof (main_degraded w (JDict dm) kf Hl Hs) as E.
  assert (Hc : new_chat_model w (JDict dm) = ([], Raise (Exn KeyError (repr_key "openai")))).
  { unfold new_chat_model. now rewrite (getitem_missing dm "openai" Ho). }
  rewrite Hc in E. cbn [outcome snd] in E.
  assert (Hm : main w =
    (banner ++ degraded_prefix w kf ++ [Print (lit "[Error]: " ++ repr_key "openai")],
     Ok tt)) by exact E.
  split; [exact Hm|]. rewrite Hm. reflexivity.
Qed.

Lemma plain_mode_needs_openai_witness :
  main world_without_openai =
    (banner
       ++ [Open config_path; Print config_loaded;
           Print (lit "Warning: notes.txt tidak ditemukan. Chatbot akan bekerja tanpa knowledge base.");
           Print rag_unavailable; Print (lit "[Error]: 'openai'")],
     Ok tt).
Proof.
  destruct (plain_mode_needs_openai world_without_openai
              (list_to_map [(lit "data", sample_data); (lit "rag", sample_rag)])
              sample_data (JStr (lit "notes.txt")) eq_refl eq_refl eq_refl eq_refl eq_refl)
    as [H _].
  rewrite H. reflexivity.
Defined.

(** X14. A [config.json] that exists and cannot be read (no permission, a
    directory, bytes that do not decode) is neither "missing" nor
    "malformed" for [main]: unless the error is itself of one of these two
    classes, the generic clause prints its text; in every case the loop is
    not entered. *)
Theorem unreadable_config_is_generic_error (w : World) e :
  fs w (lit "config.json") = Faulty e ->
  main w = (banner ++ [Open config_path] ++ trace (main_handler e), outcome (main_handler e))
  /\ loop_not_entered (trace (main w))
  /\ (exn_cls e <> FileNotFoundError -> exn_cls e <> JSONDecodeError ->
      is_Exception (exn_cls e) = true ->
      main w = (banner ++ [Open config_path; Print (lit "[Error]: " ++ exn_str e)], Ok tt)).
Proof.
  intros Hf.
  assert (Hl : load_config w = ([Open config_path], Raise e)).
  { unfold load_config, config_path.
    rewrite (bind_raise _ _ e) by now rewrite (open_read_faulty w _ e Hf).
    now rewrite (open_read_faulty w _ e Hf). }
  pose proof (main_load_raise w e Hl) as Hm.
  split; [exact Hm|]. split.
  - rewrite Hm. cbn [trace fst].
    apply free_of_app; split; [reflexivity|].
    apply free_of_app; split; [reflexivity|].
    now apply free_of_main_handler.
  - intros H1 H2 H3. rewrite Hm. unfold main_handler.
    destruct (exn_cls e); try congruence; simpl in H3; try discriminate; reflexivity.
Qed.

Lemma unreadable_config_is_generic_error_witness :
  main world_config_unreadable =
    (banner ++ [Open config_path; Print (lit "[Error]: " ++ exn_str permission_denied)],
     Ok tt).
Proof.
  destruct (unreadable_config_is_generic_error world_config_unreadable permission_denied
              eq_refl) as (_ & _ & H).
  apply H; [discriminate | discriminate | reflexivity].
Defined.

(** ** Exit words on ASCII lines *)

Lemma Forall_lstrip (P : N -> Prop) s : Forall P s -> Forall P (lstrip s).
Proof.
  induction 1 as [|c s Hc Hs IH]; simpl; [constructor|].
  destruct (isspace c); [exact IH | now constructor].
Qed.

Lemma Forall_strip (P : N -> Prop) s : Forall P s -> Forall P (strip s).
Proof.
  intros H. unfold strip, rstrip.
  apply Forall_rev, Forall_lstrip, Forall_rev, Forall_lstrip, H.
Qed.

(** X15. On a line of ASCII characters the loop is left by [break] exactly
    when the line, stripped and with A to Z folded to lower case, is one of
    the three exit words: the test needs nothing of the Unicode database,
    and a longer line that merely contains an exit word is no exit. *)
Theorem ascii_exit_decision (w : World) qa llm t raw :
  Forall (fun c => c < 128) raw ->
  outcome (iteration w qa llm t (Some raw)) = Ok Break
  <-> In (map ascii_lower (strip raw)) exit_words.
Proof.
  intros Hascii.
  rewrite <- (lower_ascii (unicode_lower w) (strip raw)) by now apply Forall_strip.
  split.
  - intros H.
    destruct (iteration_cases w qa llm t raw)
      as [[Hx _]|[(_ & _ & E)|(_ & _ & tl & _ & _ & [Hc|(e & _ & _ & He)])]].
    + now apply is_exit_line_spec.
    + rewrite E in H. discriminate.
    + rewrite Hc in H. discriminate.
    + rewrite He in H. discriminate.
  - intros H. now rewrite iteration_line, (turn_exit _ _ _ _ _ H).
Qed.

Lemma ascii_exit_decision_witness :
  outcome (iteration (world_plain [] echo) None (Some sample_model) 0
             (Some (lit "  Exit ")))
    = Ok Break
  /\ outcome (iteration (world_plain [] echo) None (Some sample_model) 0
                (Some (lit "quit now")))
       <> Ok Break.
Proof.
  split.
  - apply (ascii_exit_decision (world_plain [] echo) None (Some sample_model) 0
             (lit "  Exit ")).
    + repeat constructor.
    + vm_compute. tauto.
  - intros H.
    apply (ascii_exit_decision (world_plain [] echo) None (Some sample_model) 0
             (lit "quit now")) in H.
    + vm_compute in H. intuition discriminate.
    + repeat constructor.
Defined.

(** ** A session that is ended by an exit word *)

Lemma session_ends_with_farewell w qa llm lines :
  (forall t q e,
     outcome (answer w qa llm t q) = Raise e -> is_Exception (exn_cls e) = true) ->
  existsb (is_exit_line w) lines = true ->
  forall t, exists tl,
    session_loop w qa llm t lines = (tl ++ [Print bye], Ok tt).
Proof.
  intros Hex. induction lines as [|raw rest IH]; intros Hin t; [discriminate|].
  simpl in Hin.
  destruct (iteration_cases w qa llm t raw)
    as [[Hx E]|[(Hx & Hs & E)|(Hx & Hs & tl & Htl & Etr & Hout)]].
  - exists [Input prompt]. rewrite session_loop_break by now rewrite E. now rewrite E.
  - rewrite Hx in Hin. destruct (IH Hin (S t)) as [tl' Htl'].
    exists (Input prompt :: tl').
    rewrite session_loop_continue by now rewrite E. now rewrite E, Htl'.
  - rewrite Hx in Hin. destruct (IH Hin (S t)) as [tl' Htl'].
    destruct Hout as [Hc|(e & Ha & He & _)].
    + exists (trace (iteration w qa llm t (Some raw)) ++ tl').
      rewrite (session_loop_continue _ _ _ _ _ _ Hc), Htl'.
      cbn [trace outcome fst snd]. now rewrite app_assoc.
    + rewrite (Hex _ _ _ Ha) in He. discriminate.
Qed.

(** X16. When a line of standard input is an exit word and the answer calls
    fail with instances of [Exception] only, [main] returns normally and the
    farewell is the last thing it prints: no error message follows, and the
    end of the stream is never reached. *)
Theorem exit_word_ends_main_normally (w : World) qa llm :
  outcome (startup w) = Ok (qa, llm) ->
  (forall t q e,
     outcome (answer w qa llm t q) = Raise e -> is_Exception (exn_cls e) = true) ->
  existsb (is_exit_line w) (stdin w) = true ->
  outcome (main w) = Ok tt
  /\ last (trace (main w)) = Some (Print bye).
Proof.
  intros Hs Hex Hin.
  destruct (session_ends_with_farewell w qa llm (stdin w) Hex Hin 0%nat) as [tl Htl].
  rewrite (main_enters_loop w qa llm Hs), Htl.
  rewrite (try_except_ok _ _ tt) by reflexivity.
  cbn [trace outcome fst snd]. split; [reflexivity|].
  now rewrite !app_assoc, last_snoc.
Qed.

Lemma exit_word_ends_main_normally_witness :
  outcome (main (world_rag [lit "What is RAG?"; lit " Keluar"; lit "never read"] failing))
    = Ok tt
  /\ last (trace (main (world_rag [lit "What is RAG?"; lit " Keluar"; lit "never read"]
                         failing)))
       = Some (Print bye).
Proof.
  apply (exit_word_ends_main_normally
           (world_rag [lit "What is RAG?"; lit " Keluar"; lit "never read"] failing)
           (Some sample_chain) (Some sample_model)).
  - reflexivity.
  - intros t q e H. injection H as <-. reflexivity.
  - reflexivity.
Defined.

(** ** The decoder reads back what was written *)







Lemma more_more c n r :
  more c n r = match r with Some (s, k) => Some (c :: s, (n + k)%nat) | None => None end.
Proof. reflexivity. Qed.
































(** ** Config Loader *)






(** ** Configuration errors *)




(** ** Plain mode *)

Lemma plain_queries_in_app t1 t2 :
  plain_queries_in (t1 ++ t2) = plain_queries_in t1 ++ plain_queries_in t2.
Proof. apply omap_app. Qed.

Lemma plain_queries_without_retrieval tr :
  free_of is_retrieval_call tr -> plain_queries_in tr = queries_in tr.
Proof.
  unfold free_of, plain_queries_in, queries_in.
  induction tr as [|ev tr IH]; [reflexivity|].
  simpl. intros H. apply andb_true_iff in H as [Hev Htr].
  specialize (IH Htr).
  destruct ev; simpl in *; try discriminate; try exact IH.
  f_equal. exact IH.
Qed.

Lemma plain_queries_main_handler e : plain_queries_in (trace (main_handler e)) = [].
Proof.
  unfold main_handler. destruct (exn_cls e); try reflexivity.
Qed.

Lemma plain_queries_try_main (m : M unit) :
  plain_queries_in (trace (try_except m main_handler)) = plain_queries_in (trace m).
Proof.
  destruct (outcome m) as [a|e] eqn:E.
  - now rewrite (try_except_ok _ _ _ E).
  - rewrite (try_except_raise _ _ _ E). cbn [trace fst].
    now rewrite plain_queries_in_app, plain_queries_main_handler, app_nil_r.
Qed.

(** The queries of a session with an answerer, when no answer call fails
    with anything but an instance of [Exception]. *)
Lemma session_queries_exact w qa llm lines :
  qa <> None \/ llm <> None ->
  (forall t q e,
     outcome (answer w qa llm t q) = Raise e -> is_Exception (exn_cls e) = true) ->
  forall t, queries_in (trace (session_loop w qa llm t lines)) = expected_queries w lines.
Proof.
  intros Hav Hex. induction lines as [|raw rest IH]; intros t; [reflexivity|].
  simpl expected_queries.
  destruct (iteration_cases w qa llm t raw)
    as [[Hx E]|[(Hx & Hs & E)|(Hx & Hs & tl & Htl & Etr & Hout)]].
  - rewrite Hx, session_loop_break by now rewrite E. now rewrite E.
  - rewrite Hx, Hs, session_loop_continue by now rewrite E. rewrite E.
    cbn [trace fst]. apply (IH (S t)).
  - rewrite Hx. destruct (strip raw) as [|c q] eqn:Hq; [contradiction|].
    destruct Hout as [Hc|(e & Ha & He & _)].
    + rewrite (session_loop_continue _ _ _ _ _ _ Hc). cbn [trace fst].
      rewrite Etr. change (Input prompt :: ?l) with ([Input prompt] ++ l).
      rewrite !queries_in_app, Htl, (queries_answer _ _ _ _ _ Hav), app_nil_r, (IH (S t)).
      reflexivity.
    + rewrite (Hex _ _ _ Ha) in He. discriminate.
Qed.

Lemma plain_queries_degraded_run w kf m :
  plain_queries_in
    (banner ++ degraded_prefix w kf ++ instructions
       ++ trace (try_except (session_loop w None (Some m) 0 (stdin w)) main_handler))
  = queries_in (trace (session_loop w None (Some m) 0 (stdin w))).
Proof.
  rewrite !plain_queries_in_app, plain_queries_try_main.
  change (plain_queries_in banner) with (@nil pystr).
  change (plain_queries_in (degraded_prefix w kf)) with (@nil pystr).
  change (plain_queries_in instructions) with (@nil pystr).
  cbn [app]. apply plain_queries_without_retrieval, plain_session_never_retrieves.
Qed.

(** C3. When [setup_rag_system] returns no chain, [main] builds the chat
    model alone and runs the loop with no chain and with that model: the
    queries that [llm.predict] receives are the stripped non-empty lines
    typed before the first exit word, in order (all of them when no call
    fails with anything but an instance of [Exception]), each answered in
    its pass by [llm.predict] and by nothing else, and the run makes no
    retrieval call at all.  The loop holds the chain, or its absence, from
    the startup on: a session without a chain never calls [qa.run], a
    session with one never calls [llm.predict]. *)
Theorem plain_mode_is_exclusive (w : World) :
  (forall config llm0,
     outcome (load_config w) = Ok config ->
     outcome (setup_rag_system w config) = Ok (None, llm0) ->
     free_of is_retrieval_call (trace (main w)))
  /\ (forall config llm0 m,
        outcome (load_config w) = Ok config ->
        outcome (setup_rag_system w config) = Ok (None, llm0) ->
        outcome (new_chat_model w config) = Ok m ->
        (exists kf,
           main w =
             (banner ++ degraded_prefix w kf ++ instructions
                ++ trace (try_except (session_loop w None (Some m) 0 (stdin w)) main_handler),
              outcome (try_except (session_loop w None (Some m) 0 (stdin w)) main_handler)))
        /\ plain_queries_in (trace (main w)) `prefix_of` expected_queries w (stdin w)
        /\ ((forall t q e,
               llm_predict w m t q = Raise e -> is_Exception (exn_cls e) = true) ->
            plain_queries_in (trace (main w)) = expected_queries w (stdin w)))
  /\ (forall m t raw,
        strip raw <> [] ->
        str_in (lower (unicode_lower w) (strip raw)) exit_words = false ->
        (exists tl,
           trace (iteration w None (Some m) t (Some raw)) =
             Input prompt :: LlmPredict (strip raw) :: tl)
        /\ (forall text,
              llm_predict w m t (strip raw) = Ok text ->
              iteration w None (Some m) t (Some raw) =
                ([Input prompt; LlmPredict (strip raw);
                  Print (newline ++ lit "[Bot]: " ++ text)],
                 Ok Continue)))
  /\ (forall llm t lines,
        free_of is_retrieval_call (trace (session_loop w None llm t lines)))
  /\ (forall chain llm t lines,
        free_of is_plain_call (trace (session_loop w (Some chain) llm t lines))).
Proof.
  split; [| split; [| split; [| split]]].
  - intros config llm0 Hl Hs.
    destruct (setup_none_inv w config llm0 Hs) as (d & kf & _ & _ & _ & E).
    rewrite (main_degraded w config kf Hl E).
    destruct (outcome (new_chat_model w config)) as [m|e]; cbn [trace fst].
    + apply free_of_app; split; [reflexivity|].
      apply free_of_app; split; [reflexivity|].
      apply free_of_app; split; [reflexivity|].
      apply free_of_try.
      * apply plain_session_never_retrieves.
      * intros e. now apply free_of_main_handler.
    + apply free_of_app; split; [reflexivity|].
      apply free_of_app; split; [reflexivity|].
      now apply free_of_main_handler.
  - intros config llm0 m Hl Hs Hm.
    destruct (setup_none_inv w config llm0 Hs) as (d & kf & _ & _ & _ & E).
    pose proof (main_degraded w config kf Hl E) as Hmain. rewrite Hm in Hmain.
    split; [exists kf; exact Hmain|].
    rewrite Hmain. cbn [trace fst]. rewrite plain_queries_degraded_run. split.
    + apply queries_session_prefix. right; discriminate.
    + intros Hex. apply session_queries_exact; [right; discriminate|].
      intros t q e Ha. rewrite answer_plain in Ha. exact (Hex t q e Ha).
  - intros m t raw Hne Hx. split.
    + rewrite iteration_line.
      destruct (outcome (answer w None (Some m) t (strip raw))) as [text|e] eqn:Ha.
      * rewrite (turn_answer_ok _ _ _ _ _ _ Hne Hx Ha), trace_answer_plain.
        simpl. eauto.
      * rewrite (turn_answer_raise _ _ _ _ _ _ Hne Hx Ha), trace_answer_plain.
        simpl. eauto.
    + intros text H. rewrite iteration_line.
      rewrite (turn_answer_ok _ _ _ _ _ text Hne Hx) by (now rewrite answer_plain).
      now rewrite answer_plain.
  - intros. apply plain_session_never_retrieves.
  - intros. apply rag_session_never_predicts.
Qed.

Lemma plain_mode_is_exclusive_witness :
  plain_queries_in
    (trace (main (world_plain [lit " What is the capital of France? "; lit "";
                               lit "And of Italy?"; lit "quit"; lit "never read"] echo)))
  = [lit "What is the capital of France?"; lit "And of Italy?"]
  /\ free_of is_retrieval_call
       (trace (main (world_plain [lit " What is the capital of France? "; lit "";
                                  lit "And of Italy?"; lit "quit"; lit "never read"] echo)))
  /\ iteration (world_plain [] echo) None (Some sample_model) 0
       (Some (lit "What is the capital of France?")) =
       ([Input prompt; LlmPredict (lit "What is the capital of France?");
         Print (newline ++ lit "[Bot]: " ++ lit "ok: What is the capital of France?")],
        Ok Continue).
Proof.
  destruct (plain_mode_is_exclusive
              (world_plain [lit " What is the capital of France? "; lit "";
                            lit "And of Italy?"; lit "quit"; lit "never read"] echo))
    as (H1 & H2 & _).
  destruct (plain_mode_is_exclusive (world_plain [] echo)) as (_ & _ & H3 & _).
  split; [| split].
  - destruct (H2 sample_config None sample_model eq_refl eq_refl eq_refl) as (_ & _ & H).
    rewrite H; [reflexivity|].
    intros t q e He. discriminate He.
  - apply (H1 sample_config None); reflexivity.
  - destruct (H3 sample_model 0%nat (lit "What is the capital of France?")) as [_ H].
    + discriminate.
    + reflexivity.
    + apply H. reflexivity.
Defined.
